(** * AutobiographyApp: the entry store, its derived views and its handlers

    A shallow embedding of [src/AutobiographyApp.jsx].  The component keeps
    four in-memory mirrors of remote collections, filters and sorts the
    entries for display, and talks to a remote document store through a
    handful of [async] handlers.

    Conventions of the embedding:
    - a JavaScript string is a [string] whose characters are read as the
      code units 0..255 (Latin-1); [toLowerCase], [trim] and [includes]
      below agree with the built-ins on such strings;
    - a JavaScript number that holds an integer is a [Z]; [NaN] and
      [undefined] are [None] of an [option];
    - the remote store, the wall clock and the failures of remote calls are
      part of an explicit [World] threaded through the handlers. *)

From Stdlib Require Import ZArith NArith String Ascii List Bool Lia.
From Stdlib Require Import Sorting.Sorted Sorting.Permutation.
From Stdlib Require Import Numbers.DecimalString.
From stdpp Require Import gmap strings.

Import ListNotations.
Local Open Scope Z_scope.

(* ===================================================================== *)
(** ** String built-ins *)
(* ===================================================================== *)

Module JsString.

(** [WhiteSpace] and [LineTerminator] code points below 256: TAB, LF, VT,
    FF, CR, SPACE and NO-BREAK SPACE. *)
Definition isWhiteSpace (c : ascii) : bool :=
  let n := N_of_ascii c in
  ((9 <=? n) && (n <=? 13) || (n =? 32) || (n =? 160))%N.

(** Upper-case letters below 256: A-Z, and U+00C0..U+00DE but for the
    multiplication sign U+00D7; each maps 32 code points up. *)
Definition lowerChar (c : ascii) : ascii :=
  let n := N_of_ascii c in
  if ((65 <=? n) && (n <=? 90)
      || (192 <=? n) && (n <=? 222) && negb (n =? 215))%N
  then ascii_of_N (n + 32) else c.

(** [s.toLowerCase()] on the strings of this development, where the
    built-in converts character by character: its context-sensitive and
    length-changing conversions concern characters from U+0130 on. *)
Fixpoint toLowerCase (s : string) : string :=
  match s with
  | EmptyString => EmptyString
  | String c s' => String (lowerChar c) (toLowerCase s')
  end.

(** [s.trimStart()] *)
Fixpoint trimStart (s : string) : string :=
  match s with
  | EmptyString => EmptyString
  | String c s' => if isWhiteSpace c then trimStart s' else s
  end.

(** [s.trimEnd()] *)
Fixpoint trimEnd (s : string) : string :=
  match s with
  | EmptyString => EmptyString
  | String c s' =>
      match trimEnd s' with
      | EmptyString => if isWhiteSpace c then EmptyString else String c EmptyString
      | t => String c t
      end
  end.

(** [s.trim()] *)
Definition trim (s : string) : string := trimEnd (trimStart s).

(** [s.startsWith(q)] *)
Fixpoint startsWith (s q : string) : bool :=
  match q, s with
  | EmptyString, _ => true
  | String _ _, EmptyString => false
  | String a q', String b s' => Ascii.eqb a b && startsWith s' q'
  end.

(** [s.includes(q)]: [q] occurs in [s] at some position. *)
Fixpoint includes (s q : string) : bool :=
  startsWith s q
  || match s with
     | EmptyString => false
     | String _ s' => includes s' q
     end.

(** JavaScript truthiness of a string: only [""] is falsy. *)
Definition truthy (s : string) : bool :=
  match s with EmptyString => false | String _ _ => true end.

(** [`${n}`] for an integer [n]. *)
Definition ofZ (n : Z) : string := NilZero.string_of_int (Z.to_int n).

End JsString.
Import JsString.

(* ===================================================================== *)
(** ** Data model *)
(* ===================================================================== *)

(** One element of an entry's [collaborativeEntries]. [likes] is read with
    [comment.likes || 0], so it may be absent. *)
Module Comment.
Record t : Type := mk {
  id : string;
  author : string;
  content : string;
  likes : option Z;
  timestamp : Z
}.
End Comment.

(** The fields of an entry document as [handleSaveEntry] writes them.  The
    list-valued fields are read with [|| []] or [&&] guards, so they may be
    absent in a stored document. *)
Module EntryData.
Record t : Type := mk {
  title : string;
  content : string;
  date : string;
  location : string;
  tags : option (list string);
  privacy : string;
  type : string;
  mediaUrls : option (list string);
  collaborativeEntries : option (list Comment.t);
  author : string;
  authorName : string;
  timestamp : Z
}.
End EntryData.

(** An element of a mirror: [{ id: doc.id, ...doc.data() }]. *)
Module Entry.
Record t : Type := mk { id : string; data : EntryData.t }.
Definition title (e : t) := EntryData.title (data e).
Definition content (e : t) := EntryData.content (data e).
Definition date (e : t) := EntryData.date (data e).
Definition location (e : t) := EntryData.location (data e).
Definition tags (e : t) := EntryData.tags (data e).
Definition type (e : t) := EntryData.type (data e).
End Entry.

(* ===================================================================== *)
(** ** Filtering and sorting (lines 406-415) *)
(* ===================================================================== *)

(** [Array.prototype.sort(comparefn)].  The comparator's result is a number
    or [NaN] ([None]); the built-in reads [NaN] as [+0].  The built-in is a
    stable sort, so for a consistent comparator its result is the one of
    this stable insertion sort.  Where the comparator is not consistent (a
    [NaN] among its results) the order is left to the host, and this
    function stands for the built-in only on the inputs where it is said
    to. *)
Section ArraySort.
Context {A : Type}.
Variable comparefn : A -> A -> option Z.

(** [comparefn(x, y) > 0]: [y] goes before [x]. *)
Definition goesAfter (x y : A) : bool :=
  match comparefn x y with
  | Some v => 0 <? v
  | None => false
  end.

Fixpoint insertSorted (x : A) (l : list A) : list A :=
  match l with
  | [] => [x]
  | y :: l' => if goesAfter x y then y :: insertSorted x l' else x :: l
  end.

Definition sort (l : list A) : list A := fold_right insertSorted [] l.
End ArraySort.

Section Filtering.
(** The time value of [new Date(s)], [None] when it is an invalid date.
    [Date] belongs to the host, not to the component. *)
Variable dateValue : string -> option Z.

(** [new Date(b.date) - new Date(a.date)] *)
Definition compareDates (a b : Entry.t) : option Z :=
  match dateValue (Entry.date b), dateValue (Entry.date a) with
  | Some tb, Some ta => Some (tb - ta)
  | _, _ => None
  end.

Definition matchesSearch (searchQuery : string) (entry : Entry.t) : bool :=
  includes (toLowerCase (Entry.title entry)) (toLowerCase searchQuery)
  || includes (toLowerCase (Entry.content entry)) (toLowerCase searchQuery)
  || match Entry.tags entry with
     | Some tags =>
         existsb (fun tag => includes (toLowerCase tag) (toLowerCase searchQuery)) tags
     | None => false
     end
  || includes (toLowerCase (Entry.location entry)) (toLowerCase searchQuery).

Definition matchesFilter (filterBy : string) (entry : Entry.t) : bool :=
  String.eqb filterBy "all" || String.eqb (Entry.type entry) filterBy.

(** The [.sort(...)] of line 415 on its own. *)
Definition sortByDateDescending (entries : list Entry.t) : list Entry.t :=
  sort compareDates entries.

Definition filteredEntries (entries : list Entry.t) (searchQuery filterBy : string)
  : list Entry.t :=
  sortByDateDescending
    (List.filter
       (fun entry => matchesSearch searchQuery entry && matchesFilter filterBy entry)
       entries).
End Filtering.

(** A [Date] for the date-only form [YYYY-MM-DD] of the form's date input:
    milliseconds since the epoch at midnight UTC; anything else is invalid. *)
Module IsoDate.
Definition digit (c : ascii) : option Z :=
  let n := N_of_ascii c in
  if ((48 <=? n) && (n <=? 57))%N then Some (Z.of_N n - 48) else None.

Definition num2 (a b : ascii) : option Z :=
  match digit a, digit b with
  | Some x, Some y => Some (10 * x + y)
  | _, _ => None
  end.

Definition num4 (a b c d : ascii) : option Z :=
  match num2 a b, num2 c d with
  | Some x, Some y => Some (100 * x + y)
  | _, _ => None
  end.

Definition isLeap (y : Z) : bool :=
  (y mod 4 =? 0) && (negb (y mod 100 =? 0) || (y mod 400 =? 0)).

Definition daysInMonth (y m : Z) : Z :=
  if m =? 2 then (if isLeap y then 29 else 28)
  else if (m =? 4) || (m =? 6) || (m =? 9) || (m =? 11) then 30 else 31.

(** Days from 1970-01-01 to the civil date [y-m-d]. *)
Definition daysFromCivil (y m d : Z) : Z :=
  let y' := if m <=? 2 then y - 1 else y in
  let era := y' / 400 in
  let yoe := y' - era * 400 in
  let mp := (m + 9) mod 12 in
  let doy := (153 * mp + 2) / 5 + d - 1 in
  let doe := yoe * 365 + yoe / 4 - yoe / 100 + doy in
  era * 146097 + doe - 719468.

Definition dateValue (s : string) : option Z :=
  match s with
  | String y1 (String y2 (String y3 (String y4 (String "-"
      (String m1 (String m2 (String "-" (String d1 (String d2 EmptyString))))))))) =>
      match num4 y1 y2 y3 y4, num2 m1 m2, num2 d1 d2 with
      | Some y, Some m, Some d =>
          if (1 <=? m) && (m <=? 12) && (1 <=? d) && (d <=? daysInMonth y m)
          then Some (daysFromCivil y m d * 86400000)
          else None
      | _, _, _ => None
      end
  | _ => None
  end.
End IsoDate.

(* ===================================================================== *)
(** ** The other documents *)
(* ===================================================================== *)

(** The form of the create/edit modal ([formEntry]). *)
Module FormEntry.
Record t : Type := mk {
  title : string;
  content : string;
  date : string;
  location : string;
  tags : list string;
  privacy : string;
  type : string;
  mediaUrls : list string;
  collaborativeEntries : list Comment.t
}.
End FormEntry.

Module TimelineEvent.
Record t : Type := mk {
  id : string;
  year : Z;
  events : list string;
  color : option string
}.
End TimelineEvent.

(** A question document.  [generateAIQuestionsForYear] stores the id inside
    the document too, and writes neither [answer] nor [answeredAt]. *)
Module Question.
Record t : Type := mk {
  id : string;
  question : string;
  relatedEntry : option string;
  type : string;
  answered : bool;
  answer : option string;
  answeredAt : option Z
}.
End Question.

Module PhotoRequestData.
Record t : Type := mk {
  location : string;
  timeframe : string;
  description : string;
  status : string;
  responses : Z;
  requestedAt : Z
}.
End PhotoRequestData.

Module PhotoRequest.
Record t : Type := mk { id : string; data : PhotoRequestData.t }.
Definition status (pr : t) := PhotoRequestData.status (data pr).
Definition responses (pr : t) := PhotoRequestData.responses (data pr).
End PhotoRequest.

(* ===================================================================== *)
(** ** The remote store, the clock and the component state *)
(* ===================================================================== *)

(** The fields an [updateDoc] on an entry carries: all the fields of
    [entryData] (save) or [collaborativeEntries] alone (comments). *)
Inductive EntryPatch : Type :=
  | PatchEntryData (d : EntryData.t)
  | PatchCollaborativeEntries (l : list Comment.t).

Definition applyEntryPatch (p : EntryPatch) (d : EntryData.t) : EntryData.t :=
  match p with
  | PatchEntryData d' => d'
  | PatchCollaborativeEntries l =>
      EntryData.mk (EntryData.title d) (EntryData.content d) (EntryData.date d)
        (EntryData.location d) (EntryData.tags d) (EntryData.privacy d)
        (EntryData.type d) (EntryData.mediaUrls d) (Some l)
        (EntryData.author d) (EntryData.authorName d) (EntryData.timestamp d)
  end.

(** The partial update of [handleAnswerAIQuestion]. *)
Definition applyAnswer (answer : string) (answeredAt : Z) (q : Question.t) : Question.t :=
  Question.mk (Question.id q) (Question.question q) (Question.relatedEntry q)
    (Question.type q) true (Some answer) (Some answeredAt).

(** The calls the component makes on the remote store; the first string is
    the collection path. *)
Inductive RemoteCall : Type :=
  | GetDoc (path id : string)
  | AddEntryDoc (path : string) (d : EntryData.t)
  | UpdateEntryDoc (path id : string) (p : EntryPatch)
  | DeleteDoc (path id : string)
  | UpdateQuestionDoc (path id : string) (answer : string) (answeredAt : Z)
  | SetQuestionDoc (path id : string) (q : Question.t)
  | AddPhotoRequestDoc (path : string) (d : PhotoRequestData.t).

(** What lies outside the component: the signed-in user's four collections,
    the log of the calls made so far (oldest first), which calls the
    provider rejects ([faults n] is the error message of the call number
    [n], if it fails), the readings of the wall clock and the ids the store
    hands out in [addDoc]. *)
Record World : Type := mkWorld {
  entriesCol : gmap string EntryData.t;
  timelineEventsCol : gmap string TimelineEvent.t;
  aiQuestionsCol : gmap string Question.t;
  photoRequestsCol : gmap string PhotoRequestData.t;
  calls : list RemoteCall;
  faults : nat -> option string;
  clock : nat -> Z;
  clockReads : nat;
  autoId : nat -> string
}.

Record Connection : Type := mkConnection {
  db : bool;                  (* [db] is not null *)
  userId : option string;
  appId : string
}.

Record Mirrors : Type := mkMirrors {
  entries : list Entry.t;
  timelineEvents : list TimelineEvent.t;
  aiQuestions : list Question.t;
  photoRequests : list PhotoRequest.t
}.

Record View : Type := mkView {
  currentView : string;
  searchQuery : string;
  filterBy : string;
  selectedTimelineYear : option Z
}.

Record Modal : Type := mkModal {
  showNewEntry : bool;
  editingEntry : option Entry.t;
  formEntry : FormEntry.t
}.

Record Feedback : Type := mkFeedback {
  showFeedback : bool;
  feedbackMessage : string;
  feedbackType : string
}.

(** The [useState] cells of the component. *)
Record State : Type := mkState {
  connection : Connection;
  mirrors : Mirrors;
  view : View;
  modal : Modal;
  feedback : Feedback
}.

Definition setEntries (v : list Entry.t) (st : State) : State :=
  let m := mirrors st in
  mkState (connection st)
    (mkMirrors v (timelineEvents m) (aiQuestions m) (photoRequests m))
    (view st) (modal st) (feedback st).

Definition setTimelineEvents (v : list TimelineEvent.t) (st : State) : State :=
  let m := mirrors st in
  mkState (connection st)
    (mkMirrors (entries m) v (aiQuestions m) (photoRequests m))
    (view st) (modal st) (feedback st).

Definition setAiQuestions (v : list Question.t) (st : State) : State :=
  let m := mirrors st in
  mkState (connection st)
    (mkMirrors (entries m) (timelineEvents m) v (photoRequests m))
    (view st) (modal st) (feedback st).

Definition setPhotoRequests (v : list PhotoRequest.t) (st : State) : State :=
  let m := mirrors st in
  mkState (connection st)
    (mkMirrors (entries m) (timelineEvents m) (aiQuestions m) v)
    (view st) (modal st) (feedback st).

Definition setShowNewEntry (v : bool) (st : State) : State :=
  let m := modal st in
  mkState (connection st) (mirrors st) (view st)
    (mkModal v (editingEntry m) (formEntry m)) (feedback st).

Definition setEditingEntry (v : option Entry.t) (st : State) : State :=
  let m := modal st in
  mkState (connection st) (mirrors st) (view st)
    (mkModal (showNewEntry m) v (formEntry m)) (feedback st).

Definition setFormEntry (v : FormEntry.t) (st : State) : State :=
  let m := modal st in
  mkState (connection st) (mirrors st) (view st)
    (mkModal (showNewEntry m) (editingEntry m) v) (feedback st).

Definition setFeedback (v : Feedback) (st : State) : State :=
  mkState (connection st) (mirrors st) (view st) (modal st) v.

(** [!db || !userId] is false: the handle is there and the user id is a
    non-empty string. *)
Definition ready (st : State) : bool :=
  db (connection st)
  && match userId (connection st) with
     | Some u => truthy u
     | None => false
     end.

(** [`artifacts/${appId}/users/${userId}/${collectionName}`] *)
Definition colPath (st : State) (collectionName : string) : string :=
  "artifacts/" +:+ appId (connection st) +:+ "/users/"
  +:+ default "null" (userId (connection st)) +:+ "/" +:+ collectionName.

(* ===================================================================== *)
(** ** A monad for the handlers *)
(* ===================================================================== *)

(** A handler runs on the component state and the world; a remote call may
    throw, and the value thrown is read through [err.message] only. *)
Inductive Res (A : Type) : Type :=
  | Returned (a : A)
  | Thrown (message : string).
Arguments Returned {A} a.
Arguments Thrown {A} message.

Definition App : Type := State * World.

Definition M (A : Type) : Type := App -> Res A * App.

#[export] Instance M_ret : MRet M := fun A a s => (Returned a, s).

#[export] Instance M_bind : MBind M := fun A B f m s =>
  match m s with
  | (Returned a, s') => f a s'
  | (Thrown e, s') => (Thrown e, s')
  end.

(** [try { body } catch (err) { handler(err.message) }] *)
Definition tryCatch {A} (body : M A) (handler : string -> M A) : M A :=
  fun s =>
    match body s with
    | (Returned a, s') => (Returned a, s')
    | (Thrown e, s') => handler e s'
    end.

Definition getState : M State := fun s => (Returned (fst s), s).

Definition setState (f : State -> State) : M unit :=
  fun s => (Returned tt, (f (fst s), snd s)).

(** [for (const x of l) { await f(x) }] *)
Fixpoint forEach {A} (f : A -> M unit) (l : list A) : M unit :=
  match l with
  | [] => mret tt
  | x :: l' => f x ;; forEach f l'
  end.

(** Final state and world of a handler run. *)
Definition exec {A} (m : M A) (s : App) : App := snd (m s).

(* ===================================================================== *)
(** ** Remote calls and the clock *)
(* ===================================================================== *)

Definition withStore (e : gmap string EntryData.t) (q : gmap string Question.t)
    (p : gmap string PhotoRequestData.t) (w : World) : World :=
  mkWorld e (timelineEventsCol w) q p (calls w) (faults w) (clock w)
    (clockReads w) (autoId w).

Definition logCall (c : RemoteCall) (w : World) : World :=
  mkWorld (entriesCol w) (timelineEventsCol w) (aiQuestionsCol w)
    (photoRequestsCol w) (calls w ++ [c]) (faults w) (clock w)
    (clockReads w) (autoId w).

(** A call on the store: it is logged; the provider then rejects it, or it
    takes its effect on the collections. *)
Definition remote {A} (c : RemoteCall) (effect : World -> Res A * World) : M A :=
  fun s =>
    let w := snd s in
    match faults w (length (calls w)) with
    | Some e => (Thrown e, (fst s, logCall c w))
    | None => let r := effect w in (fst r, (fst s, logCall c (snd r)))
    end.

(** [(await getDoc(ref))]: [None] when [exists()] is false, the data
    otherwise. *)
Definition getDoc (path id : string) : M (option EntryData.t) :=
  remote (GetDoc path id) (fun w => (Returned (entriesCol w !! id), w)).

(** [addDoc(col, data)]: the store picks the id. *)
Definition addEntryDoc (path : string) (d : EntryData.t) : M unit :=
  remote (AddEntryDoc path d) (fun w =>
    (Returned tt,
     withStore (<[autoId w (length (calls w)) := d]> (entriesCol w))
       (aiQuestionsCol w) (photoRequestsCol w) w)).

(** [updateDoc(ref, fields)]: rejected when the document does not exist. *)
Definition updateEntryDoc (path id : string) (p : EntryPatch) : M unit :=
  remote (UpdateEntryDoc path id p) (fun w =>
    match entriesCol w !! id with
    | Some d =>
        (Returned tt,
         withStore (<[id := applyEntryPatch p d]> (entriesCol w))
           (aiQuestionsCol w) (photoRequestsCol w) w)
    | None => (Thrown "No document to update", w)
    end).

Definition deleteEntryDoc (path id : string) : M unit :=
  remote (DeleteDoc path id) (fun w =>
    (Returned tt,
     withStore (delete id (entriesCol w)) (aiQuestionsCol w) (photoRequestsCol w) w)).

Definition updateQuestionDoc (path id : string) (answer : string) (answeredAt : Z)
  : M unit :=
  remote (UpdateQuestionDoc path id answer answeredAt) (fun w =>
    match aiQuestionsCol w !! id with
    | Some q =>
        (Returned tt,
         withStore (entriesCol w)
           (<[id := applyAnswer answer answeredAt q]> (aiQuestionsCol w))
           (photoRequestsCol w) w)
    | None => (Thrown "No document to update", w)
    end).

(** [setDoc(doc(col, id), q)]: creates or overwrites. *)
Definition setQuestionDoc (path id : string) (q : Question.t) : M unit :=
  remote (SetQuestionDoc path id q) (fun w =>
    (Returned tt,
     withStore (entriesCol w) (<[id := q]> (aiQuestionsCol w)) (photoRequestsCol w) w)).

Definition addPhotoRequestDoc (path : string) (d : PhotoRequestData.t) : M unit :=
  remote (AddPhotoRequestDoc path d) (fun w =>
    (Returned tt,
     withStore (entriesCol w) (aiQuestionsCol w)
       (<[autoId w (length (calls w)) := d]> (photoRequestsCol w)) w)).

(** The world after one more reading of the clock. *)
Definition tick (w : World) : World :=
  mkWorld (entriesCol w) (timelineEventsCol w) (aiQuestionsCol w)
    (photoRequestsCol w) (calls w) (faults w) (clock w)
    (S (clockReads w)) (autoId w).

(** [Date.now()], and the time value of [new Date()]. *)
Definition dateNow : M Z :=
  fun s => (Returned (clock (snd s) (clockReads (snd s))), (fst s, tick (snd s))).

(* ===================================================================== *)
(** ** The handlers *)
(* ===================================================================== *)

(** Lines 124-133.  The timer that hides the toast after three seconds is
    left out. *)
Definition showUserFeedback (message type : string) : M unit :=
  setState (setFeedback (mkFeedback true message type)).

Definition notReady : M unit :=
  showUserFeedback "Database not ready. Please try again." "error".

(** [userId] where the guard has established that it is a string. *)
Definition userIdOf (st : State) : string := default "null" (userId (connection st)).

(** Line 218: [formEntry.tags.map(tag => tag.trim()).filter(tag => tag !== '')] *)
Definition cleanTags (tags : list string) : list string :=
  List.filter (fun tag => negb (String.eqb tag "")) (map trim tags).

(** Lines 214-220. *)
Definition entryData (st : State) (timestamp : Z) : EntryData.t :=
  let f := formEntry (modal st) in
  EntryData.mk (FormEntry.title f) (FormEntry.content f) (FormEntry.date f)
    (FormEntry.location f) (Some (cleanTags (FormEntry.tags f)))
    (FormEntry.privacy f) (FormEntry.type f) (Some (FormEntry.mediaUrls f))
    (Some (FormEntry.collaborativeEntries f))
    (userIdOf st) "You" timestamp.

(** Lines 203-239. *)
Definition handleSaveEntry : M unit :=
  st ← getState;
  if negb (ready st) then notReady
  else if negb (truthy (FormEntry.title (formEntry (modal st))))
          || negb (truthy (FormEntry.content (formEntry (modal st))))
  then showUserFeedback "Title and content cannot be empty." "error"
  else
    tryCatch
      (timestamp ← dateNow;
       (match editingEntry (modal st) with
        | Some editing =>
            updateEntryDoc (colPath st "entries") (Entry.id editing)
              (PatchEntryData (entryData st timestamp)) ;;
            showUserFeedback "Entry updated successfully!" "success"
        | None =>
            addEntryDoc (colPath st "entries") (entryData st timestamp) ;;
            showUserFeedback "New entry added successfully!" "success"
        end) ;;
       setState (setShowNewEntry false) ;;
       setState (setEditingEntry None))
      (fun message => showUserFeedback ("Failed to save entry: " +:+ message) "error").

(** Lines 242-257; [confirmed] is the answer to [window.confirm]. *)
Definition handleDeleteEntry (entryId : string) (confirmed : bool) : M unit :=
  st ← getState;
  if negb (ready st) then notReady
  else if confirmed then
    tryCatch
      (deleteEntryDoc (colPath st "entries") entryId ;;
       showUserFeedback "Entry deleted successfully!" "success")
      (fun message => showUserFeedback ("Failed to delete entry: " +:+ message) "error")
  else mret tt.

(** Lines 262-286. *)
Definition handleAnswerAIQuestion (questionId answerContent : string) : M unit :=
  st ← getState;
  if negb (ready st) then notReady
  else if negb (truthy (trim answerContent))
  then showUserFeedback "Please provide an answer." "error"
  else
    tryCatch
      (answeredAt ← dateNow;
       updateQuestionDoc (colPath st "aiQuestions") questionId answerContent answeredAt ;;
       showUserFeedback "Memory saved to AI Assistant!" "success")
      (fun message => showUserFeedback ("Failed to save answer: " +:+ message) "error").

(** Lines 295-310, with the two readings of [Date.now()]. *)
Definition newQuestions (now1 now2 year : Z) : list Question.t :=
  [ Question.mk ("q" +:+ ofZ now1 +:+ "a")
      ("What were your biggest aspirations or dreams during " +:+ ofZ year +:+ "?")
      None "reflection" false None None;
    Question.mk ("q" +:+ ofZ now2 +:+ "b")
      ("Who were your closest friends or mentors in " +:+ ofZ year
       +:+ " and how did they influence you?")
      None "people" false None None ].

(** Lines 289-322. *)
Definition generateAIQuestionsForYear (year : Z) : M unit :=
  st ← getState;
  if negb (ready st) then notReady
  else
    now1 ← dateNow;
    now2 ← dateNow;
    tryCatch
      (forEach
         (fun q => setQuestionDoc (colPath st "aiQuestions") (Question.id q) q)
         (newQuestions now1 now2 year) ;;
       showUserFeedback ("New AI questions generated for " +:+ ofZ year +:+ "!") "success")
      (fun message =>
         showUserFeedback ("Failed to generate AI questions: " +:+ message) "error").

(** Lines 327-347. *)
Definition requestHistoricalPhotos (location timeframe description : string) : M unit :=
  st ← getState;
  if negb (ready st) then notReady
  else
    tryCatch
      (requestedAt ← dateNow;
       addPhotoRequestDoc (colPath st "photoRequests")
         (PhotoRequestData.mk location timeframe description "pending" 0 requestedAt) ;;
       showUserFeedback "Photo request submitted successfully!" "success")
      (fun message =>
         showUserFeedback ("Failed to submit photo request: " +:+ message) "error").

(** Lines 365-371. *)
Definition newCollaborativeEntry (now timestamp : Z) (authorName content : string)
  : Comment.t :=
  Comment.mk ("c" +:+ ofZ now) authorName content (Some 0) timestamp.

(** Lines 350-381. *)
Definition handleAddCollaborativeComment (entryId authorName content : string) : M unit :=
  st ← getState;
  if negb (ready st) then notReady
  else if negb (truthy (trim content))
  then showUserFeedback "Comment cannot be empty." "error"
  else
    tryCatch
      (entryDoc ← getDoc (colPath st "entries") entryId;
       match entryDoc with
       | Some d =>
           let currentCollaborativeEntries :=
             default [] (EntryData.collaborativeEntries d) in
           now ← dateNow;
           timestamp ← dateNow;
           updateEntryDoc (colPath st "entries") entryId
             (PatchCollaborativeEntries
                (currentCollaborativeEntries
                 ++ [newCollaborativeEntry now timestamp authorName content])) ;;
           showUserFeedback "Collaborative comment added!" "success"
       | None => mret tt
       end)
      (fun message => showUserFeedback ("Failed to add comment: " +:+ message) "error").

(** Line 394: [{ ...comment, likes: (comment.likes || 0) + 1 }] *)
Definition liked (comment : Comment.t) : Comment.t :=
  Comment.mk (Comment.id comment) (Comment.author comment) (Comment.content comment)
    (Some (default 0 (Comment.likes comment) + 1)) (Comment.timestamp comment).

(** Lines 393-395. *)
Definition likeIn (commentId : string) (l : list Comment.t) : list Comment.t :=
  map (fun comment => if String.eqb (Comment.id comment) commentId
                      then liked comment else comment) l.

(** Lines 383-403. *)
Definition handleLikeCollaborativeComment (entryId commentId : string) : M unit :=
  st ← getState;
  if negb (ready st) then notReady
  else
    tryCatch
      (entryDoc ← getDoc (colPath st "entries") entryId;
       match entryDoc with
       | Some d =>
           let currentCollaborativeEntries :=
             default [] (EntryData.collaborativeEntries d) in
           updateEntryDoc (colPath st "entries") entryId
             (PatchCollaborativeEntries (likeIn commentId currentCollaborativeEntries)) ;;
           showUserFeedback "Comment liked!" "success"
       | None => mret tt
       end)
      (fun message => showUserFeedback ("Failed to like comment: " +:+ message) "error").

(** Line 1114: [{ ...pr, status: 'found', responses: pr.responses + 1 }] *)
Definition responded (pr : PhotoRequest.t) : PhotoRequest.t :=
  let d := PhotoRequest.data pr in
  PhotoRequest.mk (PhotoRequest.id pr)
    (PhotoRequestData.mk (PhotoRequestData.location d) (PhotoRequestData.timeframe d)
       (PhotoRequestData.description d) "found" (PhotoRequestData.responses d + 1)
       (PhotoRequestData.requestedAt d)).

(** Line 1109: the button is rendered for a pending request only. *)
Definition simulateShown (request : PhotoRequest.t) : bool :=
  String.eqb (PhotoRequest.status request) "pending".

(** The [onClick] of the Simulate Response button, lines 1111-1120. *)
Definition simulateResponse (request : PhotoRequest.t) : M unit :=
  st ← getState;
  setState
    (setPhotoRequests
       (map (fun pr => if String.eqb (PhotoRequest.id pr) (PhotoRequest.id request)
                       then responded pr else pr)
          (photoRequests (mirrors st)))) ;;
  showUserFeedback "Simulated a response to your photo request!" "success".

(* ===================================================================== *)
(** ** Subscriptions and the events of the component *)
(* ===================================================================== *)

Inductive Collection : Type :=
  | EntriesCollection
  | TimelineEventsCollection
  | AiQuestionsCollection
  | PhotoRequestsCollection.

Definition collectionName (c : Collection) : string :=
  match c with
  | EntriesCollection => "entries"
  | TimelineEventsCollection => "timelineEvents"
  | AiQuestionsCollection => "aiQuestions"
  | PhotoRequestsCollection => "photoRequests"
  end.

(** Lines 142-145: the snapshot callback of [fetchCollection] stores
    [snapshot.docs.map(doc => ({ id: doc.id, ...doc.data() }))] in the
    mirror.  A question document carries its own [id] field, which the
    spread puts over [doc.id]. *)
Definition onSnapshot (c : Collection) : M unit :=
  fun s =>
    let w := snd s in
    let set :=
      match c with
      | EntriesCollection =>
          setEntries (map (fun kd => Entry.mk (fst kd) (snd kd))
                        (map_to_list (entriesCol w)))
      | TimelineEventsCollection =>
          setTimelineEvents
            (map (fun kd => TimelineEvent.mk (fst kd) (TimelineEvent.year (snd kd))
                              (TimelineEvent.events (snd kd)) (TimelineEvent.color (snd kd)))
               (map_to_list (timelineEventsCol w)))
      | AiQuestionsCollection =>
          setAiQuestions (map snd (map_to_list (aiQuestionsCol w)))
      | PhotoRequestsCollection =>
          setPhotoRequests (map (fun kd => PhotoRequest.mk (fst kd) (snd kd))
                              (map_to_list (photoRequestsCol w)))
      end in
    (Returned tt, (set (fst s), w)).

(** Lines 146-149: the error callback. *)
Definition onSnapshotError (c : Collection) (message : string) : M unit :=
  showUserFeedback ("Error loading " +:+ collectionName c +:+ ": " +:+ message) "error".

(** Lines 171-200; [today] is [new Date().toISOString().split('T')[0]],
    which the branch of a new entry computes: that reading of the clock is
    not one of the [clockReads] of the world. *)
Definition openEntryModal (entryToEdit : option Entry.t) (today : string) : M unit :=
  match entryToEdit with
  | Some e =>
      let d := Entry.data e in
      setState (setEditingEntry (Some e)) ;;
      setState (setFormEntry
        (FormEntry.mk (EntryData.title d) (EntryData.content d) (EntryData.date d)
           (EntryData.location d) (default [] (EntryData.tags d)) (EntryData.privacy d)
           (EntryData.type d) (default [] (EntryData.mediaUrls d))
           (default [] (EntryData.collaborativeEntries d))))
  | None =>
      setState (setEditingEntry None) ;;
      setState (setFormEntry
        (FormEntry.mk "" "" today "" [] "private" "personal" [] []))
  end ;;
  setState (setShowNewEntry true).

Definition setView (f : View -> View) (st : State) : State :=
  mkState (connection st) (mirrors st) (f (view st)) (modal st) (feedback st).

(** What can happen to the mounted component: a callback of one of the four
    subscriptions, or an action of the user. *)
Inductive Action : Type :=
  | Snapshot (c : Collection)
  | SnapshotError (c : Collection) (message : string)
  | SetCurrentView (v : string)
  | SetSearchQuery (q : string)
  | SetFilterBy (f : string)
  | OpenEntryModal (entryToEdit : option Entry.t) (today : string)
  | ChangeFormEntry (f : FormEntry.t)
  | CloseModal
  | SaveEntry
  | DeleteEntry (entryId : string) (confirmed : bool)
  | AnswerAIQuestion (questionId answerContent : string)
  | RememberMore (year : Z)
  | RequestHistoricalPhotos (location timeframe description : string)
  | AddCollaborativeComment (entryId authorName content : string)
  | LikeCollaborativeComment (entryId commentId : string)
  | SimulateResponse (request : PhotoRequest.t).

Definition isSubscriptionCallback (a : Action) : bool :=
  match a with
  | Snapshot _ | SnapshotError _ _ => true
  | _ => false
  end.

Definition run (a : Action) : M unit :=
  match a with
  | Snapshot c => onSnapshot c
  | SnapshotError c message => onSnapshotError c message
  | SetCurrentView v =>
      setState (setView (fun x =>
        mkView v (searchQuery x) (filterBy x) (selectedTimelineYear x)))
  | SetSearchQuery q =>
      setState (setView (fun x =>
        mkView (currentView x) q (filterBy x) (selectedTimelineYear x)))
  | SetFilterBy f =>
      setState (setView (fun x =>
        mkView (currentView x) (searchQuery x) f (selectedTimelineYear x)))
  | OpenEntryModal entryToEdit today => openEntryModal entryToEdit today
  | ChangeFormEntry f => setState (setFormEntry f)
  | CloseModal => setState (setShowNewEntry false)
  | SaveEntry => handleSaveEntry
  | DeleteEntry entryId confirmed => handleDeleteEntry entryId confirmed
  | AnswerAIQuestion questionId answerContent =>
      handleAnswerAIQuestion questionId answerContent
  | RememberMore year =>
      setState (setView (fun x =>
        mkView (currentView x) (searchQuery x) (filterBy x) (Some year))) ;;
      generateAIQuestionsForYear year
  | RequestHistoricalPhotos location timeframe description =>
      requestHistoricalPhotos location timeframe description
  | AddCollaborativeComment entryId authorName content =>
      handleAddCollaborativeComment entryId authorName content
  | LikeCollaborativeComment entryId commentId =>
      handleLikeCollaborativeComment entryId commentId
  | SimulateResponse request => simulateResponse request
  end.

Definition step (a : Action) (s : App) : App := exec (run a) s.

(* ===================================================================== *)
(** ** The form inputs of the modal *)
(* ===================================================================== *)

(** [s.split(',')]: the pieces of [s] between its commas; never empty. *)
Fixpoint splitComma (s : string) : list string :=
  match s with
  | EmptyString => [EmptyString]
  | String c s' =>
      if Ascii.eqb c "," then EmptyString :: splitComma s'
      else match splitComma s' with
           | piece :: pieces => String c piece :: pieces
           | [] => [String c EmptyString]
           end
  end.

(** [l.join(sep)] *)
Fixpoint join (sep : string) (l : list string) : string :=
  match l with
  | [] => EmptyString
  | [x] => x
  | x :: l' => x +:+ sep +:+ join sep l'
  end.

Definition withTags (tags : list string) (f : FormEntry.t) : FormEntry.t :=
  FormEntry.mk (FormEntry.title f) (FormEntry.content f) (FormEntry.date f)
    (FormEntry.location f) tags (FormEntry.privacy f) (FormEntry.type f)
    (FormEntry.mediaUrls f) (FormEntry.collaborativeEntries f).

Definition withMediaUrls (mediaUrls : list string) (f : FormEntry.t) : FormEntry.t :=
  FormEntry.mk (FormEntry.title f) (FormEntry.content f) (FormEntry.date f)
    (FormEntry.location f) (FormEntry.tags f) (FormEntry.privacy f) (FormEntry.type f)
    mediaUrls (FormEntry.collaborativeEntries f).

(** Line 646: the text the tags input shows, [formEntry.tags.join(', ')]. *)
Definition tagsValue (f : FormEntry.t) : string := join ", " (FormEntry.tags f).

(** Line 647: [setFormEntry({ ...formEntry, tags: e.target.value.split(',') })] *)
Definition changeTags (value : string) : M unit :=
  st ← getState;
  setState (setFormEntry (withTags (splitComma value) (formEntry (modal st)))).

(** [l.filter((x, i) => p(x, i))], the indices counted from [i]. *)
Fixpoint filterIndexed {A} (p : A -> nat -> bool) (i : nat) (l : list A) : list A :=
  match l with
  | [] => []
  | x :: l' =>
      if p x i then x :: filterIndexed p (S i) l' else filterIndexed p (S i) l'
  end.

(** Line 686: the button on the media number [index],
    [mediaUrls: formEntry.mediaUrls.filter((_, i) => i !== index)]. *)
Definition removeMedia (index : nat) : M unit :=
  st ← getState;
  setState
    (setFormEntry
       (withMediaUrls
          (filterIndexed (fun _ i => negb (Nat.eqb i index)) 0%nat
             (FormEntry.mediaUrls (formEntry (modal st))))
          (formEntry (modal st)))).

(** Line 698. *)
Definition newMediaUrl (f : FormEntry.t) : string :=
  "https://placehold.co/100x100/A78BFA/FFFFFF?text=Media"
  +:+ ofZ (Z.of_nat (length (FormEntry.mediaUrls f)) + 1).

(** Lines 695-701: the Add Photo/Video button. *)
Definition addMedia : M unit :=
  st ← getState;
  setState
    (setFormEntry
       (withMediaUrls
          (FormEntry.mediaUrls (formEntry (modal st)) ++ [newMediaUrl (formEntry (modal st))])
          (formEntry (modal st)))) ;;
  showUserFeedback "Media upload simulated! (Requires actual storage)" "info".

(* ===================================================================== *)
(** ** The timeline view *)
(* ===================================================================== *)

(** Line 888: the comparator [(a, b) => b.year - a.year]. *)
Definition compareYears (a b : TimelineEvent.t) : option Z :=
  Some (TimelineEvent.year b - TimelineEvent.year a).

(** Line 888: rendering the timeline calls [timelineEvents.sort(...)], which
    sorts the array held by the state in place and returns it. *)
Definition renderTimeline : M (list TimelineEvent.t) :=
  st ← getState;
  setState (setTimelineEvents (sort compareYears (timelineEvents (mirrors st)))) ;;
  mret (sort compareYears (timelineEvents (mirrors st))).

(** Lines 877-888: the render of the main view, as far as it writes: when
    the timeline view is shown and there are timeline events, it sorts them
    in place. *)
Definition render : M unit :=
  st ← getState;
  if String.eqb (currentView (view st)) "timeline"
  then match timelineEvents (mirrors st) with
       | [] => mret tt
       | _ :: _ => renderTimeline ;; mret tt
       end
  else mret tt.


(* ===================================================================== *)
(** ** Start-up: the store handle and the signed-in user (lines 11-73) *)
(* ===================================================================== *)

Module Boot.
(** The [useState] cells of lines 11-16; [db] and [auth] are non-null. *)
Record t : Type := mk {
  db : bool;
  auth : bool;
  userId : option string;
  isAuthReady : bool;
  loading : bool;
  error : option string
}.

(** The initial values of the cells. *)
Definition initial : t := mk false false None false true None.

(** What happens to the cells: [initFirebase] runs on a configuration with or
    without keys, [initializeApp], [getFirestore] or [getAuth] throwing or
    not; or the auth listener is called, with the signed-in user or with
    none, in which case the sign-in that follows succeeds or throws. *)
Inductive event : Type :=
  | InitFirebase (configHasKeys : bool) (thrown : option string)
  | AuthStateChanged (user : option string) (signInThrown : option string).

(** Lines 24-70 and 41-62. *)
Definition handle (e : event) (b : t) : t :=
  match e with
  | InitFirebase false _ =>
      mk (db b) (auth b) (userId b) (isAuthReady b) false
        (Some "Firebase configuration is missing. Cannot connect to database.")
  | InitFirebase true (Some message) =>
      mk (db b) (auth b) (userId b) (isAuthReady b) false
        (Some ("Failed to initialize application: " +:+ message))
  | InitFirebase true None =>
      mk true true (userId b) (isAuthReady b) (loading b) (error b)
  | AuthStateChanged (Some uid) _ =>
      mk (db b) (auth b) (Some uid) true false (error b)
  | AuthStateChanged None (Some message) =>
      mk (db b) (auth b) (userId b) (isAuthReady b) false
        (Some ("Authentication failed: " +:+ message))
  | AuthStateChanged None None =>
      mk (db b) (auth b) (userId b) (isAuthReady b) false (error b)
  end.

Definition run (events : list event) (b : t) : t := fold_left (fun b e => handle e b) events b.

(** Lines 418-436: what the component renders. *)
Inductive screen : Type :=
  | LoadingScreen
  | ErrorScreen (message : string)
  | MainView.

Definition render (b : t) : screen :=
  if loading b then LoadingScreen
  else match error b with
       | Some message => ErrorScreen message
       | None => MainView
       end.

(** Line 137: the subscriptions are set up. *)
Definition subscribes (b : t) : bool :=
  db b && match userId b with Some u => truthy u | None => false end && isAuthReady b.
End Boot.

(** An action failed: started with no toast on display, it ends with an
    error toast. *)
Definition clearFeedback (st : State) : State := setFeedback (mkFeedback false "" "") st.

Definition failed (a : Action) (s : App) : bool :=
  String.eqb (feedbackType (feedback (fst (step a (clearFeedback (fst s), snd s))))) "error".

(* ===================================================================== *)
(** ** Specification-side predicates *)
(* ===================================================================== *)

(** [q] is a case-insensitive substring of [s]: lower-cased, [q] occurs in
    lower-cased [s]. *)
Definition ciSubstring (q s : string) : Prop :=
  exists pre post, toLowerCase s = pre +:+ toLowerCase q +:+ post.

(** The entries the derived view is to keep for a query and a type filter. *)
Definition Selected (q t : string) (e : Entry.t) : Prop :=
  (ciSubstring q (Entry.title e)
   \/ ciSubstring q (Entry.content e)
   \/ (exists tags tag, Entry.tags e = Some tags /\ In tag tags /\ ciSubstring q tag)
   \/ ciSubstring q (Entry.location e))
  /\ (t = "all" \/ Entry.type e = t).

(** [a] may stand before [b] in a list sorted by date descending. *)
Definition dateDescending (dateValue : string -> option Z) (a b : Entry.t) : Prop :=
  exists ta tb,
    dateValue (Entry.date a) = Some ta /\ dateValue (Entry.date b) = Some tb /\ tb <= ta.

(** A string is blank when trimming leaves nothing of it. *)
Definition isBlank (s : string) : bool := String.eqb (trim s) "".

(** Two entry documents agree on every field but [collaborativeEntries]. *)
Definition sameOtherFields (d d' : EntryData.t) : Prop :=
  EntryData.title d' = EntryData.title d
  /\ EntryData.content d' = EntryData.content d
  /\ EntryData.date d' = EntryData.date d
  /\ EntryData.location d' = EntryData.location d
  /\ EntryData.tags d' = EntryData.tags d
  /\ EntryData.privacy d' = EntryData.privacy d
  /\ EntryData.type d' = EntryData.type d
  /\ EntryData.mediaUrls d' = EntryData.mediaUrls d
  /\ EntryData.author d' = EntryData.author d
  /\ EntryData.authorName d' = EntryData.authorName d
  /\ EntryData.timestamp d' = EntryData.timestamp d.

(** Two comments agree on every field but [likes]. *)
Definition sameButLikes (c c' : Comment.t) : Prop :=
  Comment.id c' = Comment.id c
  /\ Comment.author c' = Comment.author c
  /\ Comment.content c' = Comment.content c
  /\ Comment.timestamp c' = Comment.timestamp c.







(** The comparator of a descending sort on a numeric key that may be
    [NaN]: both comparators of the component have this form. *)
Definition byKeyDescending {A} (key : A -> option Z) (a b : A) : option Z :=
  match key b, key a with
  | Some kb, Some ka => Some (kb - ka)
  | _, _ => None
  end.

(** [a] may stand before [b] in a list sorted by [key] descending. *)
Definition keyDescending {A} (key : A -> option Z) (a b : A) : Prop :=
  exists ka kb, key a = Some ka /\ key b = Some kb /\ kb <= ka.

(** The elements of [l] whose key is [k], in their order. *)
Definition withKey {A} (key : A -> option Z) (k : Z) (l : list A) : list A :=
  List.filter (fun x => match key x with Some v => v =? k | None => false end) l.

(** [s] with a space put after each of its commas. *)
Fixpoint spaceAfterCommas (s : string) : string :=
  match s with
  | EmptyString => EmptyString
  | String c s' =>
      if Ascii.eqb c "," then String c (String " " (spaceAfterCommas s'))
      else String c (spaceAfterCommas s')
  end.

(** The number of commas of [s]. *)
Fixpoint commas (s : string) : nat :=
  match s with
  | EmptyString => 0%nat
  | String c s' => if Ascii.eqb c "," then S (commas s') else commas s'
  end.

(** The collections of a world, without its log and its clock. *)
Definition collections (w : World)
  : gmap string EntryData.t * gmap string TimelineEvent.t
    * gmap string Question.t * gmap string PhotoRequestData.t :=
  (entriesCol w, timelineEventsCol w, aiQuestionsCol w, photoRequestsCol w).

(** What every start-up run keeps (see [Boot]). *)
Definition bootInvariant (b : Boot.t) : Prop :=
  (Boot.isAuthReady b = true <-> is_Some (Boot.userId b))
  /\ (is_Some (Boot.userId b) -> Boot.loading b = false)
  /\ Boot.db b = Boot.auth b.

(* ===================================================================== *)
(** ** Sample data *)
(* ===================================================================== *)

Definition sampleEntryData (title content date location : string)
    (tags : option (list string)) (type : string) : EntryData.t :=
  EntryData.mk title content date location tags "private" type (Some []) (Some [])
    "user-1" "You" 0.

Definition tripEntry : Entry.t :=
  Entry.mk "e1"
    (sampleEntryData "Trip" "Went to Paris" "2015-06-01" "Paris" (Some ["travel"]) "personal").

Definition schoolEntry : Entry.t :=
  Entry.mk "e2"
    (sampleEntryData "Graduation" "Last day of school" "2016-05-20" "Orlando" None "event").

Definition birthEntry : Entry.t :=
  Entry.mk "e3"
    (sampleEntryData "Born" "The beginning" "1998-12-31" "" (Some []) "personal").

Definition sampleEntries : list Entry.t := [birthEntry; tripEntry; schoolEntry].

Definition sampleConnection : Connection :=
  mkConnection true (Some "user-1") "default-autobiography-app".

Definition sampleForm (title content : string) (tags : list string) : FormEntry.t :=
  FormEntry.mk title content "2015-06-01" "Paris" tags "private" "personal" [] [].

(** A signed-in component with empty mirrors, the modal open on [f]. *)
Definition sampleState (f : FormEntry.t) (editing : option Entry.t) : State :=
  mkState sampleConnection (mkMirrors [] [] [] []) (mkView "entries" "" "all" None)
    (mkModal true editing f) (mkFeedback false "" "success").

(** A world with the given entries, in which no call fails. *)
Definition sampleWorld (e : gmap string EntryData.t) : World :=
  mkWorld e ∅ ∅ ∅ [] (fun _ => None) (fun n => 1700000000000 + Z.of_nat n) 0%nat
    (fun n => "doc" +:+ ofZ (Z.of_nat n)).

(** The same world, but the provider rejects every call. *)
Definition offlineWorld (e : gmap string EntryData.t) : World :=
  mkWorld e ∅ ∅ ∅ [] (fun _ => Some "unavailable")
    (fun n => 1700000000000 + Z.of_nat n) 0%nat (fun n => "doc" +:+ ofZ (Z.of_nat n)).

Definition lovelyComment : Comment.t := Comment.mk "c1" "Guest User" "Lovely" (Some 2) 10.

Definition thereComment : Comment.t := Comment.mk "c2" "Guest User" "I was there" None 20.

(** The trip entry with two comments on it. *)
Definition commentedTrip : EntryData.t :=
  applyEntryPatch (PatchCollaborativeEntries [lovelyComment; thereComment])
    (Entry.data tripEntry).

Definition commentedStore : gmap string EntryData.t := {[ "e1" := commentedTrip ]}.

Definition dreamsQuestion : Question.t :=
  Question.mk "q1700000000000a" "What were your biggest aspirations or dreams during 2015?"
    None "reflection" false None None.

(** A world that holds one unanswered question and in which no call fails. *)
Definition questionWorld : World :=
  mkWorld ∅ ∅ {[ "q1700000000000a" := dreamsQuestion ]} ∅ [] (fun _ => None)
    (fun n => 1700000000000 + Z.of_nat n) 0%nat (fun n => "doc" +:+ ofZ (Z.of_nat n)).

Definition parisRequest : PhotoRequest.t :=
  PhotoRequest.mk "p1"
    (PhotoRequestData.mk "Paris" "2010s" "The tower at night" "pending" 0 1700000000000).

Definition romeRequest : PhotoRequest.t :=
  PhotoRequest.mk "p2"
    (PhotoRequestData.mk "Rome" "1990s" "The forum" "found" 1 1600000000000).

(** The sample component once a snapshot has delivered two photo requests. *)
Definition photoState : State :=
  setPhotoRequests [parisRequest; romeRequest] (sampleState (sampleForm "" "" []) None).

(** A second entry of the day of the trip. *)
Definition louvreEntry : Entry.t :=
  Entry.mk "e5"
    (sampleEntryData "Louvre" "Saw the Mona Lisa" "2015-06-01" "Paris" None "personal").



(** An empty world in which the provider rejects the second call only. *)
Definition flakyWorld : World :=
  mkWorld ∅ ∅ ∅ ∅ [] (fun n => if Nat.eqb n 1 then Some "unavailable" else None)
    (fun n => 1700000000000 + Z.of_nat n) 0%nat (fun n => "doc" +:+ ofZ (Z.of_nat n)).

(** A component whose user id has not arrived yet. *)
Definition signedOutState : State :=
  mkState (mkConnection true None "default-autobiography-app") (mkMirrors [] [] [] [])
    (mkView "entries" "" "all" None)
    (mkModal true None (sampleForm "Trip" "Went to Paris" []))
    (mkFeedback false "" "success").

(* ===================================================================== *)
(** ** Running a handler: tactics *)
(* ===================================================================== *)

(** Unfold the calls on the store. *)
Ltac unfold_remote :=
  unfold getDoc, addEntryDoc, updateEntryDoc, deleteEntryDoc, updateQuestionDoc,
    setQuestionDoc, addPhotoRequestDoc, remote.

(** Unfold the operations of the monad. *)
Ltac unfold_monad :=
  unfold exec, tryCatch, notReady, showUserFeedback, setState, getState, dateNow, tick,
    mbind, M_bind, mret, M_ret;
  cbn [fst snd].

(** Unfold every handler down to its tests on the state and the world. *)
Ltac unfold_handlers :=
  unfold failed, clearFeedback; unfold step, run, handleSaveEntry, handleDeleteEntry,
    handleAnswerAIQuestion, generateAIQuestionsForYear, requestHistoricalPhotos,
    handleAddCollaborativeComment, handleLikeCollaborativeComment, simulateResponse,
    openEntryModal, onSnapshotError, newQuestions;
  unfold_monad; unfold_remote; cbn [forEach]; unfold_monad.

(** Reduce the projections of an updated component state. *)
Ltac reduce_state :=
  cbn [fst snd forEach setFeedback setShowNewEntry setEditingEntry setFormEntry setView
       setPhotoRequests connection mirrors view modal feedback feedbackType
       entries timelineEvents aiQuestions photoRequests negb] in *.

(** Case analysis on the tests of a handler run in the goal. *)
Ltac split_run :=
  repeat match goal with
    | |- context [match ?x with _ => _ end] =>
        match x with
        | context [match _ with _ => _ end] => fail 1
        | _ => destruct x eqn:?
        end
    | H : context [match ?x with _ => _ end] |- _ =>
        match x with
        | context [match _ with _ => _ end] => fail 1
        | _ => destruct x eqn:?
        end
    end;
  reduce_state.


(** Reduce the projections of an updated world. *)
Ltac reduce_world :=
  cbn [fst snd entriesCol timelineEventsCol aiQuestionsCol photoRequestsCol calls faults
       clock clockReads autoId logCall withStore collections] in *.

(* ===================================================================== *)
(** ** Strings: lemmas *)
(* ===================================================================== *)

Lemma startsWith_spec (s q : string) :
  startsWith s q = true <-> exists post, s = q +:+ post.
Proof.
  revert s. induction q as [|a q IH]; intros s; simpl.
  - split; [intros _; exists s; reflexivity | intros _; destruct s; reflexivity].
  - destruct s as [|b s]; simpl.
    + split; [discriminate | intros [post H]; discriminate].
    + rewrite andb_true_iff, Ascii.eqb_eq, IH. split.
      * intros [-> [post ->]]. exists post. reflexivity.
      * intros [post H]. injection H as -> ->. split; [reflexivity | exists post; reflexivity].
Qed.

Lemma includes_spec (s q : string) :
  includes s q = true <-> exists pre post, s = pre +:+ q +:+ post.
Proof.
  induction s as [|c s IH].
  - cbn [includes]. rewrite orb_false_r, startsWith_spec. split.
    + intros [post H]. exists "", post. exact H.
    + intros [pre [post H]]. destruct pre; [exists post; exact H | discriminate].
  - cbn [includes]. rewrite orb_true_iff, startsWith_spec, IH. split.
    + intros [[post H] | [pre [post H]]].
      * exists "", post. exact H.
      * exists (String c pre), post. simpl. rewrite H. reflexivity.
    + intros [pre [post H]]. destruct pre as [|c' pre].
      * left. exists post. exact H.
      * right. simpl in H. injection H as _ H. exists pre, post. exact H.
Qed.


Lemma includes_ci (s q : string) :
  includes (toLowerCase s) (toLowerCase q) = true <-> ciSubstring q s.
Proof. apply includes_spec. Qed.

(* ===================================================================== *)
(** ** The sort: lemmas *)
(* ===================================================================== *)

Section SortFacts.
Context {A : Type}.
Variable comparefn : A -> A -> option Z.

Lemma insertSorted_perm (x : A) (l : list A) :
  Permutation (insertSorted comparefn x l) (x :: l).
Proof.
  induction l as [|y l IH]; simpl.
  - reflexivity.
  - destruct (goesAfter comparefn x y).
    + rewrite IH. apply perm_swap.
    + reflexivity.
Qed.

Lemma sort_perm (l : list A) : Permutation (sort comparefn l) l.
Proof.
  induction l as [|x l IH]; simpl.
  - reflexivity.
  - rewrite insertSorted_perm. constructor. exact IH.
Qed.

Lemma insertSorted_Forall (Q : A -> Prop) (x : A) (l : list A) :
  Q x -> List.Forall Q l -> List.Forall Q (insertSorted comparefn x l).
Proof.
  intros Hx Hl. induction Hl as [|y l Hy Hl IH]; simpl.
  - constructor; [exact Hx | constructor].
  - destruct (goesAfter comparefn x y); constructor; auto.
Qed.
End SortFacts.

Section DateOrder.
Variable dateValue : string -> option Z.

Let valid (e : Entry.t) : Prop := dateValue (Entry.date e) <> None.

Lemma goesAfter_dates_true (x y : Entry.t) :
  goesAfter (compareDates dateValue) x y = true -> dateDescending dateValue y x.
Proof.
  unfold goesAfter, compareDates, dateDescending.
  destruct (dateValue (Entry.date y)) as [ty|]; [|discriminate].
  destruct (dateValue (Entry.date x)) as [tx|]; [|discriminate].
  intros H. apply Z.ltb_lt in H. exists ty, tx. repeat split; lia.
Qed.

Lemma goesAfter_dates_false (x y : Entry.t) :
  valid x -> valid y ->
  goesAfter (compareDates dateValue) x y = false -> dateDescending dateValue x y.
Proof.
  unfold valid, goesAfter, compareDates, dateDescending. intros Hx Hy.
  destruct (dateValue (Entry.date y)) as [ty|]; [|congruence].
  destruct (dateValue (Entry.date x)) as [tx|]; [|congruence].
  intros H. apply Z.ltb_ge in H. exists tx, ty. repeat split; lia.
Qed.

Lemma dateDescending_trans (a b c : Entry.t) :
  dateDescending dateValue a b -> dateDescending dateValue b c ->
  dateDescending dateValue a c.
Proof.
  intros (ta & tb & Ha & Hb & Hab) (tb' & tc & Hb' & Hc & Hbc).
  rewrite Hb in Hb'. injection Hb' as <-.
  exists ta, tc. repeat split; [assumption .. | lia].
Qed.

Lemma insertSorted_sorted (x : Entry.t) (l : list Entry.t) :
  valid x -> List.Forall valid l ->
  StronglySorted (dateDescending dateValue) l ->
  StronglySorted (dateDescending dateValue) (insertSorted (compareDates dateValue) x l).
Proof.
  intros Hx Hl Hs. induction Hs as [|y l Hs IH Hy]; simpl.
  - constructor; constructor.
  - inversion Hl as [|? ? Hvy Hvl]; subst.
    destruct (goesAfter (compareDates dateValue) x y) eqn:E.
    + constructor; [apply IH; assumption |].
      apply insertSorted_Forall; [apply goesAfter_dates_true; exact E | exact Hy].
    + apply goesAfter_dates_false in E; [|assumption ..].
      constructor; [constructor; assumption |].
      constructor; [exact E |].
      eapply List.Forall_impl; [|exact Hy].
      intros z Hz. eapply dateDescending_trans; eassumption.
Qed.

Lemma sort_dates_sorted (l : list Entry.t) :
  List.Forall valid l ->
  StronglySorted (dateDescending dateValue) (sortByDateDescending dateValue l).
Proof.
  unfold sortByDateDescending.
  induction 1 as [|x l Hx Hl IH]; simpl.
  - constructor.
  - apply insertSorted_sorted; [exact Hx | | exact IH].
    clear IH Hx. induction Hl as [|y l Hy Hl IH]; simpl.
    + constructor.
    + apply insertSorted_Forall; assumption.
Qed.
End DateOrder.

Lemma keeps_Selected (q t : string) (e : Entry.t) :
  matchesSearch q e && matchesFilter t e = true <-> Selected q t e.
Proof.
  unfold matchesSearch, matchesFilter, Selected.
  rewrite andb_true_iff, !orb_true_iff, !includes_ci, !String.eqb_eq.
  assert (Htags :
    match Entry.tags e with
    | Some tags =>
        existsb (fun tag => includes (toLowerCase tag) (toLowerCase q)) tags
    | None => false
    end = true
    <-> exists tags tag, Entry.tags e = Some tags /\ In tag tags /\ ciSubstring q tag).
  { destruct (Entry.tags e) as [tags|].
    - rewrite existsb_exists. split.
      + intros [tag [Hin H]]. exists tags, tag. rewrite <- includes_ci. auto.
      + intros (tags' & tag & Heq & Hin & H). injection Heq as <-.
        exists tag. rewrite includes_ci. auto.
    - split; [discriminate | intros (? & ? & ? & _); discriminate]. }
  rewrite Htags. tauto.
Qed.

(* ===================================================================== *)
(** ** Ignoring case: the code against the words *)
(* ===================================================================== *)




Lemma toLowerCase_append (a b : string) :
  toLowerCase (a +:+ b) = toLowerCase a +:+ toLowerCase b.
Proof.
  induction a as [|c a IH]; [reflexivity|].
  change (String c a +:+ b) with (String c (a +:+ b)).
  cbn [toLowerCase]. rewrite IH. reflexivity.
Qed.




(* ===================================================================== *)
(** ** C1: the filtered, sorted view *)
(* ===================================================================== *)




(** The form lets such an entry through: the save tests the title and the
    content only. *)
Example handleSaveEntry_accepts_empty_date :
  let st := sampleState (FormEntry.mk "Undated" "Some day" "" "" [] "private" "personal" [] [])
              None in
  feedback (fst (exec handleSaveEntry (st, sampleWorld ∅)))
  = mkFeedback true "New entry added successfully!" "success".
Proof. vm_compute. reflexivity. Qed.

(** The scenario of the specification: the query ["paris"], in any case,
    finds the trip through its location and its content; the newer entry
    comes first in the unfiltered view. *)
Example filteredEntries_paris :
  filteredEntries IsoDate.dateValue sampleEntries "pArIs" "all" = [tripEntry]
  /\ filteredEntries IsoDate.dateValue sampleEntries "" "all" = [schoolEntry; tripEntry; birthEntry]
  /\ filteredEntries IsoDate.dateValue sampleEntries "" "event" = [schoolEntry].
Proof. repeat split; vm_compute; reflexivity. Qed.

(* ===================================================================== *)
(** ** C2: saving validates the title and the content *)
(* ===================================================================== *)

(** The toast of a failed validation in [handleSaveEntry]. *)
Lemma handleSaveEntry_empty (st : State) (w : World) :
  ready st = true ->
  truthy (FormEntry.title (formEntry (modal st))) = false
  \/ truthy (FormEntry.content (formEntry (modal st))) = false ->
  exec handleSaveEntry (st, w)
  = (setFeedback (mkFeedback true "Title and content cannot be empty." "error") st, w).
Proof.
  intros Hr He. unfold handleSaveEntry. unfold_monad. rewrite Hr. cbn [negb].
  destruct He as [-> | ->]; cbn [negb orb]; rewrite ?orb_true_r; reflexivity.
Qed.

Lemma truthy_false (s : string) : truthy s = false <-> s = "".
Proof. destruct s; simpl; split; congruence. Qed.

(** C2, as the code has it.  When the title or the content of the draft is
    the empty string, [handleSaveEntry] leaves the world as it is (no call
    on the remote store) and shows an error toast, which is the validation
    message when the store is ready; so a call on the remote store is made
    only when both are non-empty; and when the store is ready and both are
    non-empty, one call is made. *)
Theorem handleSaveEntry_validation (st : State) (w : World) :
  let draft := formEntry (modal st) in
  let s' := exec handleSaveEntry (st, w) in
  (FormEntry.title draft = "" \/ FormEntry.content draft = "" ->
     snd s' = w
     /\ feedbackType (feedback (fst s')) = "error"
     /\ (ready st = true ->
         feedback (fst s') = mkFeedback true "Title and content cannot be empty." "error"))
  /\ (calls (snd s') <> calls w ->
      FormEntry.title draft <> "" /\ FormEntry.content draft <> "")
  /\ (ready st = true -> FormEntry.title draft <> "" -> FormEntry.content draft <> "" ->
      exists c, calls (snd s') = calls w ++ [c]).
Proof.
  intros draft s'.
  assert (Hempty : FormEntry.title draft = "" \/ FormEntry.content draft = "" ->
                   snd s' = w
                   /\ feedbackType (feedback (fst s')) = "error"
                   /\ (ready st = true ->
                       feedback (fst s')
                       = mkFeedback true "Title and content cannot be empty." "error")).
  { intros He. subst s'. destruct (ready st) eqn:Hr.
    - rewrite handleSaveEntry_empty; [auto | exact Hr |].
      rewrite !truthy_false. exact He.
    - unfold handleSaveEntry. unfold_monad. rewrite Hr. cbn.
      repeat split. discriminate. }
  split; [exact Hempty | split].
  - intros Hcalls.
    destruct (String.eqb_spec (FormEntry.title draft) "") as [Ht|Ht];
      [destruct (Hempty (or_introl Ht)) as [Hw _]; rewrite Hw in Hcalls; congruence|].
    destruct (String.eqb_spec (FormEntry.content draft) "") as [Hc|Hc];
      [destruct (Hempty (or_intror Hc)) as [Hw _]; rewrite Hw in Hcalls; congruence|].
    split; assumption.
  - intros Hr Ht Hc. subst s'. unfold handleSaveEntry. unfold_monad. rewrite Hr.
    rewrite <- truthy_false in Ht, Hc.
    apply not_false_is_true in Ht, Hc. fold draft. rewrite Ht, Hc. cbn [negb orb].
    destruct (editingEntry (modal st)) as [editing|]; unfold_remote; unfold_monad;
      cbn [faults calls entriesCol clock clockReads];
      destruct (faults w (length (calls w))); cbn [fst snd calls logCall];
      try (eexists; reflexivity).
    destruct (entriesCol w !! Entry.id editing); cbn [fst snd calls logCall withStore];
      eexists; reflexivity.
Qed.

Lemma handleSaveEntry_validation_witness :
  snd (exec handleSaveEntry (sampleState (sampleForm "" "Went to Paris" []) None, sampleWorld ∅))
  = sampleWorld ∅.
Proof.
  apply (proj1 (handleSaveEntry_validation
                  (sampleState (sampleForm "" "Went to Paris" []) None) (sampleWorld ∅))).
  left. reflexivity.
Defined.

(** C2 as stated fails on a whitespace-only title: the guard of line 208
    tests the strings for emptiness without trimming them, so the draft is
    written to the store and a success toast is shown. *)
Lemma handleSaveEntry_whitespace_title_saved :
  let st := sampleState (sampleForm "   " "Went to Paris" []) None in
  let s' := exec handleSaveEntry (st, sampleWorld ∅) in
  isBlank (FormEntry.title (formEntry (modal st))) = true
  /\ calls (snd s')
     = [AddEntryDoc "artifacts/default-autobiography-app/users/user-1/entries"
          (entryData st 1700000000000)]
  /\ feedback (fst s') = mkFeedback true "New entry added successfully!" "success".
Proof. vm_compute. repeat split. Qed.

(* ===================================================================== *)
(** ** Trimming: lemmas *)
(* ===================================================================== *)

Lemma trimStart_head (s : string) :
  trimStart s = ""
  \/ exists c r, trimStart s = String c r /\ isWhiteSpace c = false.
Proof.
  induction s as [|c s IH]; simpl.
  - left. reflexivity.
  - destruct (isWhiteSpace c) eqn:E; [exact IH|].
    right. exists c, s. split; [reflexivity | exact E].
Qed.

Lemma trimEnd_head (c : ascii) (r : string) :
  isWhiteSpace c = false -> exists r', trimEnd (String c r) = String c r'.
Proof.
  intros E. simpl. destruct (trimEnd r) as [|d t].
  - rewrite E. exists "". reflexivity.
  - exists (String d t). reflexivity.
Qed.

Lemma trimEnd_idem (s : string) : trimEnd (trimEnd s) = trimEnd s.
Proof.
  induction s as [|c s IH]; [reflexivity|].
  cbn [trimEnd]. destruct (trimEnd s) as [|d t] eqn:E.
  - destruct (isWhiteSpace c) eqn:Ec; [reflexivity|].
    simpl. rewrite Ec. reflexivity.
  - cbn [trimEnd] in *. rewrite IH. reflexivity.
Qed.

Lemma trim_idem (s : string) : trim (trim s) = trim s.
Proof.
  unfold trim. destruct (trimStart_head s) as [-> | (c & r & -> & E)]; [reflexivity|].
  destruct (trimEnd_head c r E) as [r' Hr']. rewrite Hr'.
  cbn [trimStart]. rewrite E, <- Hr'. apply trimEnd_idem.
Qed.

Lemma cleanTags_spec (tags : list string) (t : string) :
  In t (cleanTags tags) <-> t <> "" /\ exists x, In x tags /\ t = trim x.
Proof.
  unfold cleanTags. rewrite List.filter_In, List.in_map_iff, negb_true_iff.
  destruct (String.eqb_spec t "") as [H|H]; split.
  - intros [_ ?]. discriminate.
  - intros [? _]. contradiction.
  - intros [(x & <- & Hx) _]. split; [exact H | exists x; auto].
  - intros [_ (x & Hx & ->)]. split; [exists x; auto | reflexivity].
Qed.

Lemma cleanTags_not_blank (tags : list string) :
  List.Forall (fun t => t <> "" /\ trim t = t /\ isBlank t = false) (cleanTags tags).
Proof.
  apply List.Forall_forall. intros t Ht. apply cleanTags_spec in Ht.
  destruct Ht as [Hne (x & _ & ->)].
  assert (Hid : trim (trim x) = trim x) by apply trim_idem.
  repeat split; [exact Hne | exact Hid |].
  unfold isBlank. rewrite Hid. apply String.eqb_neq. exact Hne.
Qed.

(* ===================================================================== *)
(** ** C3: the tags of a saved entry *)
(* ===================================================================== *)

(** The document a successful save writes: under a fresh id for a new
    entry, under the id of the entry being edited otherwise. *)
Lemma handleSaveEntry_success (st : State) (w : World) :
  ready st = true ->
  FormEntry.title (formEntry (modal st)) <> "" ->
  FormEntry.content (formEntry (modal st)) <> "" ->
  faults w (length (calls w)) = None ->
  (forall editing, editingEntry (modal st) = Some editing ->
                   is_Some (entriesCol w !! Entry.id editing)) ->
  let s' := exec handleSaveEntry (st, w) in
  let id := match editingEntry (modal st) with
            | Some editing => Entry.id editing
            | None => autoId w (length (calls w))
            end in
  entriesCol (snd s') = <[id := entryData st (clock w (clockReads w))]> (entriesCol w)
  /\ feedbackType (feedback (fst s')) = "success".
Proof.
  intros Hr Ht Hc Hf Hex. unfold handleSaveEntry. unfold_monad. rewrite Hr.
  rewrite <- truthy_false in Ht, Hc. apply not_false_is_true in Ht, Hc.
  rewrite Ht, Hc. cbn [negb orb].
  destruct (editingEntry (modal st)) as [editing|]; unfold_remote; unfold_monad;
    cbn [faults calls entriesCol clock clockReads autoId]; rewrite Hf.
  - destruct (Hex editing eq_refl) as [d Hd]. rewrite Hd. cbn. split; reflexivity.
  - cbn. split; reflexivity.
Qed.

(** The call a save logs when it goes through: an update of the entry being
    edited, or the creation of a new one, with the data of the form. *)
Lemma handleSaveEntry_logs (st : State) (w : World) :
  ready st = true ->
  FormEntry.title (formEntry (modal st)) <> "" ->
  FormEntry.content (formEntry (modal st)) <> "" ->
  faults w (length (calls w)) = None ->
  calls (snd (exec handleSaveEntry (st, w)))
  = calls w
    ++ [match editingEntry (modal st) with
        | Some editing =>
            UpdateEntryDoc (colPath st "entries") (Entry.id editing)
              (PatchEntryData (entryData st (clock w (clockReads w))))
        | None => AddEntryDoc (colPath st "entries") (entryData st (clock w (clockReads w)))
        end].
Proof.
  intros Hr Ht Hc Hf. unfold handleSaveEntry. unfold_monad. rewrite Hr.
  rewrite <- truthy_false in Ht, Hc. apply not_false_is_true in Ht, Hc.
  rewrite Ht, Hc. cbn [negb orb].
  destruct (editingEntry (modal st)) as [editing|]; unfold_remote; unfold_monad;
    cbn [faults calls entriesCol clock clockReads autoId]; rewrite Hf.
  - destruct (entriesCol w !! Entry.id editing); reflexivity.
  - reflexivity.
Qed.

(** C3, as the code has it.  After a successful save the persisted entry,
    the document under the id of the entry being edited or under the id
    the store gives a new one, is the one the logged call carries, and its
    tags are the draft's tags, each trimmed, with the empty strings removed
    and the order and the duplicates kept; so no stored tag is empty or
    blank, and each is its own trimmed form.  No other document changes. *)
Theorem handleSaveEntry_tags (st : State) (w : World) :
  ready st = true ->
  FormEntry.title (formEntry (modal st)) <> "" ->
  FormEntry.content (formEntry (modal st)) <> "" ->
  faults w (length (calls w)) = None ->
  (forall editing, editingEntry (modal st) = Some editing ->
                   is_Some (entriesCol w !! Entry.id editing)) ->
  let draftTags := FormEntry.tags (formEntry (modal st)) in
  let s' := exec handleSaveEntry (st, w) in
  let id := match editingEntry (modal st) with
            | Some editing => Entry.id editing
            | None => autoId w (length (calls w))
            end in
  let stored := List.filter (fun tag => negb (String.eqb tag "")) (map trim draftTags) in
  (exists d,
      entriesCol (snd s') !! id = Some d
      /\ EntryData.tags d = Some stored
      /\ calls (snd s')
         = calls w
           ++ [match editingEntry (modal st) with
               | Some _ => UpdateEntryDoc (colPath st "entries") id (PatchEntryData d)
               | None => AddEntryDoc (colPath st "entries") d
               end])
  /\ (forall k, k <> id -> entriesCol (snd s') !! k = entriesCol w !! k)
  /\ List.Forall (fun t => t <> "" /\ trim t = t /\ isBlank t = false) stored.
Proof.
  intros Hr Ht Hc Hf Hex draftTags s' id stored.
  destruct (handleSaveEntry_success st w Hr Ht Hc Hf Hex) as [Hcol _].
  pose proof (handleSaveEntry_logs st w Hr Ht Hc Hf) as Hcalls.
  subst s'. fold id in Hcol. rewrite Hcol. split; [|split].
  - exists (entryData st (clock w (clockReads w))).
    split; [apply lookup_insert_eq|]. split; [reflexivity|].
    rewrite Hcalls. subst id. destruct (editingEntry (modal st)); reflexivity.
  - intros k Hk. apply lookup_insert_ne. congruence.
  - apply cleanTags_not_blank.
Qed.

Lemma handleSaveEntry_tags_witness :
  exists d,
    entriesCol (snd (exec handleSaveEntry
      (sampleState (sampleForm "Trip" "Went to Paris" [" travel "; "  "; "france"]) None,
       sampleWorld ∅))) !! "doc0" = Some d
    /\ EntryData.tags d = Some ["travel"; "france"].
Proof.
  destruct (handleSaveEntry_tags
              (sampleState (sampleForm "Trip" "Went to Paris" [" travel "; "  "; "france"]) None)
              (sampleWorld ∅))
    as ((d & H1 & H2 & _) & _);
    [reflexivity | discriminate | discriminate | reflexivity | discriminate |].
  exists d. split; [exact H1 | exact H2].
Defined.

(** An edit rewrites the tags of the entry that is edited. *)
Example handleSaveEntry_edit_tags :
  let s' := exec handleSaveEntry
              (sampleState (sampleForm "Trip" "Went to Paris" [" new "]) (Some tripEntry),
               sampleWorld commentedStore) in
  (EntryData.tags <$> entriesCol (snd s') !! "e1") = Some (Some ["new"])
  /\ size (entriesCol (snd s')) = 1%nat.
Proof. vm_compute. split; reflexivity. Qed.

(** C3 as stated fails on a repeated tag: line 218 trims and drops the
    empty strings but removes no duplicate, and the stored tags repeat. *)
Lemma handleSaveEntry_keeps_duplicate_tags :
  let st := sampleState (sampleForm "Trip" "Went to Paris" ["travel"; " travel"]) None in
  let s' := exec handleSaveEntry (st, sampleWorld ∅) in
  feedback (fst s') = mkFeedback true "New entry added successfully!" "success"
  /\ (EntryData.tags <$> entriesCol (snd s') !! "doc0") = Some (Some ["travel"; "travel"])
  /\ ~ List.NoDup ["travel"; "travel"].
Proof.
  split; [vm_compute; reflexivity|]. split; [vm_compute; reflexivity|].
  intros H. inversion H as [|? ? Hin _]; subst. apply Hin. left. reflexivity.
Qed.

(* ===================================================================== *)
(** ** Remote calls: lemmas *)
(* ===================================================================== *)

Lemma remote_ok {A} (c : RemoteCall) (effect : World -> Res A * World)
    (st : State) (w : World) :
  faults w (length (calls w)) = None ->
  remote c effect (st, w) = (fst (effect w), (st, logCall c (snd (effect w)))).
Proof. intros Hf. unfold remote. cbn [fst snd]. rewrite Hf. reflexivity. Qed.

Lemma remote_fault {A} (c : RemoteCall) (effect : World -> Res A * World)
    (st : State) (w : World) (e : string) :
  faults w (length (calls w)) = Some e ->
  remote c effect (st, w) = (Thrown e, (st, logCall c w)).
Proof. intros Hf. unfold remote. cbn [fst snd]. rewrite Hf. reflexivity. Qed.

Lemma length_calls_logCall (c : RemoteCall) (w : World) :
  length (calls (logCall c w)) = (length (calls w) + 1)%nat.
Proof. unfold logCall. cbn [calls]. rewrite List.length_app. reflexivity. Qed.

(** Writing a list of comments back to an existing entry, when the call is
    not rejected. *)
Lemma updateComments_run (st : State) (w : World) (path entryId : string)
    (d : EntryData.t) (l : list Comment.t) (k : M unit) :
  entriesCol w !! entryId = Some d ->
  faults w (length (calls w)) = None ->
  (updateEntryDoc path entryId (PatchCollaborativeEntries l) ;; k) (st, w)
  = k (st,
       logCall (UpdateEntryDoc path entryId (PatchCollaborativeEntries l))
         (withStore (<[entryId := applyEntryPatch (PatchCollaborativeEntries l) d]>
                       (entriesCol w))
            (aiQuestionsCol w) (photoRequestsCol w) w)).
Proof.
  intros Hd Hf. unfold mbind, M_bind, updateEntryDoc.
  rewrite remote_ok by exact Hf. rewrite Hd. reflexivity.
Qed.

(* ===================================================================== *)
(** ** Liking a comment: lemmas *)
(* ===================================================================== *)

Lemma likeIn_nomatch (commentId : string) (l : list Comment.t) :
  (forall c, In c l -> Comment.id c <> commentId) -> likeIn commentId l = l.
Proof.
  unfold likeIn. induction l as [|x l IH]; intros H; [reflexivity|].
  cbn [map]. rewrite IH by (intros c Hc; apply H; right; exact Hc).
  destruct (String.eqb_spec (Comment.id x) commentId) as [E|_]; [|reflexivity].
  exfalso. apply (H x); [left; reflexivity | exact E].
Qed.

Lemma likeIn_app (commentId : string) (l1 l2 : list Comment.t) :
  likeIn commentId (l1 ++ l2) = likeIn commentId l1 ++ likeIn commentId l2.
Proof. apply List.map_app. Qed.

Lemma likeIn_unique (pre post : list Comment.t) (c : Comment.t) :
  List.NoDup (map Comment.id (pre ++ c :: post)) ->
  likeIn (Comment.id c) (pre ++ c :: post) = pre ++ liked c :: post.
Proof.
  intros Hnd. rewrite List.map_app in Hnd. cbn [map] in Hnd.
  apply List.NoDup_remove_2 in Hnd. rewrite List.in_app_iff in Hnd.
  rewrite likeIn_app. change (c :: post) with ([c] ++ post). rewrite likeIn_app.
  rewrite (likeIn_nomatch _ pre), (likeIn_nomatch _ post).
  - unfold likeIn. cbn [map]. rewrite String.eqb_refl. reflexivity.
  - intros x Hx E. apply Hnd. right. rewrite <- E. apply List.in_map. exact Hx.
  - intros x Hx E. apply Hnd. left. rewrite <- E. apply List.in_map. exact Hx.
Qed.

(** A successful run of [handleLikeCollaborativeComment]. *)
Lemma handleLikeCollaborativeComment_run (st : State) (w : World)
    (entryId commentId : string) (d : EntryData.t) :
  ready st = true ->
  entriesCol w !! entryId = Some d ->
  faults w (length (calls w)) = None ->
  faults w (length (calls w) + 1)%nat = None ->
  let l := likeIn commentId (default [] (EntryData.collaborativeEntries d)) in
  let path := colPath st "entries" in
  exec (handleLikeCollaborativeComment entryId commentId) (st, w)
  = (setFeedback (mkFeedback true "Comment liked!" "success") st,
     logCall (UpdateEntryDoc path entryId (PatchCollaborativeEntries l))
       (withStore (<[entryId := applyEntryPatch (PatchCollaborativeEntries l) d]>
                     (entriesCol w))
          (aiQuestionsCol w) (photoRequestsCol w)
          (logCall (GetDoc path entryId) w))).
Proof.
  intros Hr Hd Hf1 Hf2 l path. unfold handleLikeCollaborativeComment, exec, tryCatch.
  unfold mbind at 1. unfold M_bind at 1. unfold getState at 1. cbn [fst snd].
  rewrite Hr. cbn [negb]. unfold mbind at 1. unfold M_bind at 1. unfold getDoc.
  rewrite remote_ok by exact Hf1. cbn [fst snd]. rewrite Hd. cbn [default].
  rewrite (updateComments_run st _ _ _ d);
    [reflexivity | exact Hd | rewrite length_calls_logCall; exact Hf2].
Qed.

Lemma applyEntryPatch_comments (l : list Comment.t) (d : EntryData.t) :
  EntryData.collaborativeEntries (applyEntryPatch (PatchCollaborativeEntries l) d) = Some l
  /\ sameOtherFields d (applyEntryPatch (PatchCollaborativeEntries l) d).
Proof. unfold sameOtherFields. cbn. repeat split. Qed.

(* ===================================================================== *)
(** ** C4 and C10: liking a comment *)
(* ===================================================================== *)

(** C4.  On an entry whose comments have pairwise distinct ids and hold a
    comment with id [commentId], a like that goes through replaces that
    comment by one with the same other fields and its likes (0 when absent)
    increased by 1, keeps every other comment of the list in place, keeps
    every other field of the entry, and touches no other entry. *)
Theorem handleLikeCollaborativeComment_likes_one (st : State) (w : World)
    (entryId commentId : string) (d : EntryData.t) :
  ready st = true ->
  entriesCol w !! entryId = Some d ->
  faults w (length (calls w)) = None ->
  faults w (length (calls w) + 1)%nat = None ->
  let l := default [] (EntryData.collaborativeEntries d) in
  List.NoDup (map Comment.id l) ->
  (exists c, In c l /\ Comment.id c = commentId) ->
  let s' := exec (handleLikeCollaborativeComment entryId commentId) (st, w) in
  exists pre c post c' d',
    l = pre ++ c :: post
    /\ Comment.id c = commentId
    /\ entriesCol (snd s') !! entryId = Some d'
    /\ EntryData.collaborativeEntries d' = Some (pre ++ c' :: post)
    /\ Comment.likes c' = Some (default 0 (Comment.likes c) + 1)
    /\ sameButLikes c c'
    /\ sameOtherFields d d'
    /\ (forall k, k <> entryId -> entriesCol (snd s') !! k = entriesCol w !! k).
Proof.
  intros Hr Hd Hf1 Hf2 l Hnd [c [Hin Hid]] s'. subst s'.
  rewrite (handleLikeCollaborativeComment_run st w entryId commentId d) by assumption.
  destruct (List.in_split _ _ Hin) as (pre & post & Hl).
  exists pre, c, post, (liked c). eexists.
  cbn [snd logCall withStore entriesCol]. fold l.
  split; [exact Hl|]. split; [exact Hid|]. split; [apply lookup_insert_eq|].
  destruct (applyEntryPatch_comments (likeIn commentId l) d) as [Hc Hsame].
  split.
  { rewrite Hc. f_equal. rewrite <- Hid, Hl. apply likeIn_unique.
    rewrite <- Hl. exact Hnd. }
  split; [reflexivity|]. split; [repeat split|]. split; [exact Hsame|].
  intros k Hk. apply lookup_insert_ne. congruence.
Qed.

Lemma handleLikeCollaborativeComment_likes_one_witness :
  EntryData.collaborativeEntries
  <$> entriesCol (snd (exec (handleLikeCollaborativeComment "e1" "c2")
                         (sampleState (sampleForm "" "" []) None,
                          sampleWorld commentedStore))) !! "e1"
  = Some (Some [lovelyComment; Comment.mk "c2" "Guest User" "I was there" (Some 1) 20]).
Proof.
  destruct (handleLikeCollaborativeComment_likes_one
              (sampleState (sampleForm "" "" []) None) (sampleWorld commentedStore)
              "e1" "c2" commentedTrip)
    as (pre & c & post & c' & d' & _ & _ & Hd' & _);
    [reflexivity | reflexivity | reflexivity | reflexivity
    | vm_compute; repeat constructor; cbn; intuition discriminate
    | exists thereComment; split; [right; left; reflexivity | reflexivity] |].
  vm_compute. reflexivity.
Defined.

(** C10.  On an existing entry none of whose comments has the id
    [commentId], a like that goes through reads the entry, writes the list
    of comments back as it was (the other fields of the entry kept) and
    shows the success toast. *)
Theorem handleLikeCollaborativeComment_unmatched (st : State) (w : World)
    (entryId commentId : string) (d : EntryData.t) :
  ready st = true ->
  entriesCol w !! entryId = Some d ->
  faults w (length (calls w)) = None ->
  faults w (length (calls w) + 1)%nat = None ->
  let l := default [] (EntryData.collaborativeEntries d) in
  (forall c, In c l -> Comment.id c <> commentId) ->
  let s' := exec (handleLikeCollaborativeComment entryId commentId) (st, w) in
  calls (snd s')
  = calls w ++ [GetDoc (colPath st "entries") entryId;
                UpdateEntryDoc (colPath st "entries") entryId (PatchCollaborativeEntries l)]
  /\ (exists d', entriesCol (snd s') !! entryId = Some d'
                 /\ EntryData.collaborativeEntries d' = Some l
                 /\ sameOtherFields d d')
  /\ (forall k, k <> entryId -> entriesCol (snd s') !! k = entriesCol w !! k)
  /\ feedback (fst s') = mkFeedback true "Comment liked!" "success".
Proof.
  intros Hr Hd Hf1 Hf2 l Hno s'. subst s'.
  rewrite (handleLikeCollaborativeComment_run st w entryId commentId d) by assumption.
  fold l. rewrite (likeIn_nomatch commentId l Hno).
  cbn [fst snd logCall withStore entriesCol calls].
  split; [rewrite <- List.app_assoc; reflexivity|].
  split.
  { eexists. split; [apply lookup_insert_eq|]. apply applyEntryPatch_comments. }
  split; [|reflexivity].
  intros k Hk. apply lookup_insert_ne. congruence.
Qed.

Lemma handleLikeCollaborativeComment_unmatched_witness :
  feedback (fst (exec (handleLikeCollaborativeComment "e1" "c9")
                   (sampleState (sampleForm "" "" []) None, sampleWorld commentedStore)))
  = mkFeedback true "Comment liked!" "success".
Proof.
  apply (handleLikeCollaborativeComment_unmatched
           (sampleState (sampleForm "" "" []) None) (sampleWorld commentedStore)
           "e1" "c9" commentedTrip);
    [reflexivity | reflexivity | reflexivity | reflexivity |].
  intros c [<- | [<- | []]]; discriminate.
Defined.

(* ===================================================================== *)
(** ** C5: adding a comment *)
(* ===================================================================== *)

Lemma isBlank_truthy (s : string) : truthy (trim s) = negb (isBlank s).
Proof. unfold isBlank. destruct (trim s); reflexivity. Qed.

(** A successful run of [handleAddCollaborativeComment]. *)
Lemma handleAddCollaborativeComment_run (st : State) (w : World)
    (entryId authorName content : string) (d : EntryData.t) :
  ready st = true ->
  isBlank content = false ->
  entriesCol w !! entryId = Some d ->
  faults w (length (calls w)) = None ->
  faults w (length (calls w) + 1)%nat = None ->
  let l := default [] (EntryData.collaborativeEntries d)
           ++ [newCollaborativeEntry (clock w (clockReads w)) (clock w (S (clockReads w)))
                 authorName content] in
  let path := colPath st "entries" in
  exec (handleAddCollaborativeComment entryId authorName content) (st, w)
  = (setFeedback (mkFeedback true "Collaborative comment added!" "success") st,
     logCall (UpdateEntryDoc path entryId (PatchCollaborativeEntries l))
       (withStore (<[entryId := applyEntryPatch (PatchCollaborativeEntries l) d]>
                     (entriesCol w))
          (aiQuestionsCol w) (photoRequestsCol w)
          (tick (tick (logCall (GetDoc path entryId) w))))).
Proof.
  intros Hr Hb Hd Hf1 Hf2 l path. unfold handleAddCollaborativeComment, exec, tryCatch.
  unfold mbind at 1. unfold M_bind at 1. unfold getState at 1. cbn [fst snd].
  rewrite Hr, isBlank_truthy, Hb. cbn [negb].
  unfold mbind at 1. unfold M_bind at 1. unfold getDoc.
  rewrite remote_ok by exact Hf1. cbn [fst snd]. rewrite Hd. cbn [default].
  unfold mbind at 1. unfold M_bind at 1. unfold dateNow at 1. cbn [fst snd].
  unfold mbind at 1. unfold M_bind at 1. unfold dateNow at 1. cbn [fst snd].
  rewrite (updateComments_run st _ _ _ d);
    [reflexivity | exact Hd | cbn [tick logCall calls faults]; rewrite List.length_app; exact Hf2].
Qed.

(** C5.  With blank content [handleAddCollaborativeComment] leaves the
    world as it is (no remote call, no write) and shows an error toast,
    which is the validation message when the store is ready.  With
    non-blank content, on an existing entry and with no call rejected, the
    stored list of comments is the previous one followed by one new comment
    with likes 0 and the given author and content; the other fields of the
    entry are kept. *)
Theorem handleAddCollaborativeComment_spec (st : State) (w : World)
    (entryId authorName content : string) :
  let s' := exec (handleAddCollaborativeComment entryId authorName content) (st, w) in
  (isBlank content = true ->
     snd s' = w
     /\ feedbackType (feedback (fst s')) = "error"
     /\ (ready st = true ->
         feedback (fst s') = mkFeedback true "Comment cannot be empty." "error"))
  /\ (forall d,
        ready st = true ->
        isBlank content = false ->
        entriesCol w !! entryId = Some d ->
        faults w (length (calls w)) = None ->
        faults w (length (calls w) + 1)%nat = None ->
        exists c d',
          entriesCol (snd s') !! entryId = Some d'
          /\ EntryData.collaborativeEntries d'
             = Some (default [] (EntryData.collaborativeEntries d) ++ [c])
          /\ Comment.likes c = Some 0
          /\ Comment.author c = authorName
          /\ Comment.content c = content
          /\ Comment.id c = "c" +:+ ofZ (clock w (clockReads w))
          /\ sameOtherFields d d').
Proof.
  intros s'. subst s'. split.
  - intros Hb. unfold handleAddCollaborativeComment. unfold_monad.
    rewrite isBlank_truthy, Hb. destruct (ready st); cbn; repeat split; discriminate.
  - intros d Hr Hb Hd Hf1 Hf2.
    rewrite (handleAddCollaborativeComment_run st w entryId authorName content d)
      by assumption.
    eexists _, _. cbn [snd logCall withStore entriesCol].
    split; [apply lookup_insert_eq|].
    split; [apply applyEntryPatch_comments|].
    repeat (split; [reflexivity|]). apply applyEntryPatch_comments.
Qed.

Lemma handleAddCollaborativeComment_spec_witness :
  snd (exec (handleAddCollaborativeComment "e1" "Guest User" "   ")
         (sampleState (sampleForm "" "" []) None, sampleWorld commentedStore))
  = sampleWorld commentedStore
  /\ exists c d',
       entriesCol (snd (exec (handleAddCollaborativeComment "e1" "Guest User" "Me too")
                          (sampleState (sampleForm "" "" []) None,
                           sampleWorld commentedStore))) !! "e1" = Some d'
       /\ EntryData.collaborativeEntries d' = Some ([lovelyComment; thereComment] ++ [c])
       /\ Comment.likes c = Some 0.
Proof.
  split.
  - apply (proj1 (handleAddCollaborativeComment_spec
                    (sampleState (sampleForm "" "" []) None) (sampleWorld commentedStore)
                    "e1" "Guest User" "   ")).
    reflexivity.
  - destruct (proj2 (handleAddCollaborativeComment_spec
                       (sampleState (sampleForm "" "" []) None) (sampleWorld commentedStore)
                       "e1" "Guest User" "Me too") commentedTrip)
      as (c & d' & H1 & H2 & H3 & _); [reflexivity ..|].
    exists c, d'. repeat split; assumption.
Defined.

(* ===================================================================== *)
(** ** C6: answering a question *)
(* ===================================================================== *)

(** The question collection after [handleAnswerAIQuestion]: as before, or
    with the answered question updated. *)
Lemma handleAnswerAIQuestion_cases (st : State) (w : World)
    (questionId answerContent : string) :
  let s' := exec (handleAnswerAIQuestion questionId answerContent) (st, w) in
  aiQuestionsCol (snd s') = aiQuestionsCol w
  \/ (ready st = true
      /\ isBlank answerContent = false
      /\ faults w (length (calls w)) = None
      /\ exists q, aiQuestionsCol w !! questionId = Some q
                   /\ aiQuestionsCol (snd s')
                      = <[questionId := applyAnswer answerContent (clock w (clockReads w)) q]>
                          (aiQuestionsCol w)).
Proof.
  unfold handleAnswerAIQuestion. unfold_monad. rewrite isBlank_truthy.
  destruct (ready st); [|left; reflexivity].
  destruct (isBlank answerContent); [left; reflexivity|]. cbn [negb].
  unfold_remote. unfold_monad. cbn [faults calls aiQuestionsCol].
  destruct (faults w (length (calls w))); [left; reflexivity|].
  destruct (aiQuestionsCol w !! questionId) as [q|] eqn:Hq; [|left; reflexivity].
  right. repeat split. exists q. split; reflexivity.
Qed.

(** C6.  With blank content [handleAnswerAIQuestion] leaves the world as it
    is (no remote call, so the question's [answered] flag stays as it was)
    and shows an error toast, the validation message when the store is
    ready.  With non-blank content, on an existing question and with the
    call not rejected, the question gets [answered = true], the content as
    its answer and the clock reading as [answeredAt], its other fields
    kept.  And whatever the run, a question document that differs after it
    has [answered = true] with a non-null, non-blank answer and a
    timestamp. *)
Theorem handleAnswerAIQuestion_spec (st : State) (w : World)
    (questionId answerContent : string) :
  let s' := exec (handleAnswerAIQuestion questionId answerContent) (st, w) in
  (isBlank answerContent = true ->
     snd s' = w
     /\ feedbackType (feedback (fst s')) = "error"
     /\ (ready st = true ->
         feedback (fst s') = mkFeedback true "Please provide an answer." "error"))
  /\ (forall q,
        ready st = true ->
        isBlank answerContent = false ->
        aiQuestionsCol w !! questionId = Some q ->
        faults w (length (calls w)) = None ->
        exists q',
          aiQuestionsCol (snd s') !! questionId = Some q'
          /\ Question.answered q' = true
          /\ Question.answer q' = Some answerContent
          /\ Question.answeredAt q' = Some (clock w (clockReads w))
          /\ Question.id q' = Question.id q
          /\ Question.question q' = Question.question q
          /\ Question.relatedEntry q' = Question.relatedEntry q
          /\ Question.type q' = Question.type q)
  /\ (forall k q',
        aiQuestionsCol (snd s') !! k = Some q' ->
        aiQuestionsCol w !! k = Some q'
        \/ (Question.answered q' = true
            /\ Question.answer q' = Some answerContent
            /\ Question.answeredAt q' <> None
            /\ isBlank answerContent = false)).
Proof.
  intros s'. split; [|split].
  - intros Hb. subst s'. unfold handleAnswerAIQuestion. unfold_monad.
    rewrite isBlank_truthy, Hb. destruct (ready st); cbn; repeat split; discriminate.
  - intros q Hr Hb Hq Hf. subst s'. unfold handleAnswerAIQuestion. unfold_monad.
    rewrite isBlank_truthy, Hr, Hb. cbn [negb]. unfold_remote. unfold_monad.
    cbn [faults calls aiQuestionsCol]. rewrite Hf, Hq.
    cbn [fst snd aiQuestionsCol logCall withStore].
    eexists. split; [apply lookup_insert_eq|]. repeat split.
  - intros k q' Hk.
    destruct (handleAnswerAIQuestion_cases st w questionId answerContent)
      as [Hsame | (_ & Hb & _ & q0 & Hq0 & Hcol)]; subst s'.
    + left. rewrite <- Hsame. exact Hk.
    + rewrite Hcol in Hk. destruct (decide (questionId = k)) as [<-|Hne].
      * rewrite lookup_insert_eq in Hk. injection Hk as <-. right.
        repeat split; [discriminate | exact Hb].
      * rewrite lookup_insert_ne in Hk by exact Hne. left. exact Hk.
Qed.

Lemma handleAnswerAIQuestion_spec_witness :
  snd (exec (handleAnswerAIQuestion "q1700000000000a" "  ")
         (sampleState (sampleForm "" "" []) None, questionWorld))
  = questionWorld
  /\ exists q',
       aiQuestionsCol (snd (exec (handleAnswerAIQuestion "q1700000000000a" "To travel")
                              (sampleState (sampleForm "" "" []) None, questionWorld)))
         !! "q1700000000000a" = Some q'
       /\ Question.answered q' = true
       /\ Question.answer q' = Some "To travel".
Proof.
  split.
  - apply (proj1 (handleAnswerAIQuestion_spec
                    (sampleState (sampleForm "" "" []) None) questionWorld
                    "q1700000000000a" "  ")).
    reflexivity.
  - destruct (proj1 (proj2 (handleAnswerAIQuestion_spec
                              (sampleState (sampleForm "" "" []) None) questionWorld
                              "q1700000000000a" "To travel")) dreamsQuestion)
      as (q' & H1 & H2 & H3 & _); [reflexivity ..|].
    exists q'. repeat split; assumption.
Defined.

(* ===================================================================== *)
(** ** C7: the two generated questions *)
(* ===================================================================== *)

Lemma append_last_inj (s1 s2 : string) (c1 c2 : ascii) :
  s1 +:+ String c1 "" = s2 +:+ String c2 "" -> c1 = c2.
Proof.
  revert s2. induction s1 as [|d s1 IH]; intros [|e s2] H;
    unfold String.append in H; fold String.append in H.
  - congruence.
  - injection H as _ H. destruct s2; discriminate.
  - injection H as _ H. destruct s1; discriminate.
  - injection H as _ H. exact (IH _ H).
Qed.

Lemma suffixed_ids_differ (now1 now2 : Z) :
  "q" +:+ ofZ now1 +:+ "a" <> "q" +:+ ofZ now2 +:+ "b".
Proof.
  intros H. unfold String.append in H; fold String.append in H. injection H as H.
  apply append_last_inj in H. discriminate.
Qed.

(** A successful run of [generateAIQuestionsForYear]. *)
Lemma generateAIQuestionsForYear_run (st : State) (w : World) (year : Z) :
  ready st = true ->
  faults w (length (calls w)) = None ->
  faults w (length (calls w) + 1)%nat = None ->
  let path := colPath st "aiQuestions" in
  forall qa qb,
    newQuestions (clock w (clockReads w)) (clock w (S (clockReads w))) year = [qa; qb] ->
    let s' := exec (generateAIQuestionsForYear year) (st, w) in
    calls (snd s')
    = calls w ++ [SetQuestionDoc path (Question.id qa) qa;
                  SetQuestionDoc path (Question.id qb) qb]
    /\ aiQuestionsCol (snd s')
       = <[Question.id qb := qb]> (<[Question.id qa := qa]> (aiQuestionsCol w))
    /\ feedbackType (feedback (fst s')) = "success".
Proof.
  intros Hr Hf1 Hf2 path qa qb Hq s'. subst s'.
  unfold generateAIQuestionsForYear. unfold_monad. rewrite Hr. cbn [negb].
  cbn [fst snd entriesCol timelineEventsCol aiQuestionsCol photoRequestsCol calls faults
       clock clockReads autoId].
  rewrite Hq. cbn [forEach].
  unfold setQuestionDoc, remote. unfold_monad. cbn [faults calls]. rewrite Hf1.
  cbn [fst snd logCall withStore faults calls]. rewrite List.length_app.
  cbn [length]. rewrite Hf2.
  cbn [fst snd logCall withStore entriesCol aiQuestionsCol photoRequestsCol calls
       feedback setFeedback feedbackType].
  rewrite <- List.app_assoc. repeat split.
Qed.

(** C7.  Whatever the two readings of the clock, equal or not,
    [generateAIQuestionsForYear] builds exactly two question records, both
    unanswered and with a null [relatedEntry], whose ids are the readings
    between ["q"] and the suffixes ["a"] and ["b"], and so differ; and when
    the store is ready and neither write is rejected, it writes exactly
    these two records, each under its id. *)
Theorem generateAIQuestionsForYear_two_distinct (now1 now2 year : Z)
    (st : State) (w : World) :
  (exists qa qb,
      newQuestions now1 now2 year = [qa; qb]
      /\ Question.answered qa = false /\ Question.answered qb = false
      /\ Question.relatedEntry qa = None /\ Question.relatedEntry qb = None
      /\ Question.id qa = "q" +:+ ofZ now1 +:+ "a"
      /\ Question.id qb = "q" +:+ ofZ now2 +:+ "b"
      /\ Question.id qa <> Question.id qb)
  /\ (ready st = true ->
      faults w (length (calls w)) = None ->
      faults w (length (calls w) + 1)%nat = None ->
      let s' := exec (generateAIQuestionsForYear year) (st, w) in
      let qs := newQuestions (clock w (clockReads w)) (clock w (S (clockReads w))) year in
      calls (snd s')
      = calls w ++ map (fun q => SetQuestionDoc (colPath st "aiQuestions") (Question.id q) q) qs
      /\ List.Forall (fun q => aiQuestionsCol (snd s') !! Question.id q = Some q) qs).
Proof.
  split.
  - eexists _, _. split; [reflexivity|]. cbn [Question.answered Question.relatedEntry Question.id].
    repeat (split; [reflexivity|]). apply suffixed_ids_differ.
  - intros Hr Hf1 Hf2 s' qs.
    destruct (generateAIQuestionsForYear_run st w year Hr Hf1 Hf2 _ _ eq_refl)
      as (Hcalls & Hcol & _).
    subst s' qs. split; [exact Hcalls|]. rewrite Hcol.
    constructor; [|constructor; [|constructor]].
    + rewrite lookup_insert_ne by (apply not_eq_sym, suffixed_ids_differ).
      apply lookup_insert_eq.
    + apply lookup_insert_eq.
Qed.

Lemma generateAIQuestionsForYear_two_distinct_witness :
  let s' := exec (generateAIQuestionsForYear 2015)
              (sampleState (sampleForm "" "" []) None, questionWorld) in
  length (calls (snd s')) = 2%nat.
Proof.
  intros s'.
  destruct (proj2 (generateAIQuestionsForYear_two_distinct 0 0 2015
                     (sampleState (sampleForm "" "" []) None) questionWorld))
    as [Hcalls _]; [reflexivity | reflexivity | reflexivity |].
  subst s'. rewrite Hcalls. reflexivity.
Defined.

(** The scenario of the specification: both readings in one millisecond. *)
Example newQuestions_same_millisecond :
  map Question.id (newQuestions 1700000000000 1700000000000 2015)
  = ["q1700000000000a"; "q1700000000000b"].
Proof. vm_compute. reflexivity. Qed.

(* ===================================================================== *)
(** ** C8: the life of a photo request *)
(* ===================================================================== *)

Lemma simulateResponse_run (request : PhotoRequest.t) (st : State) (w : World) :
  exec (simulateResponse request) (st, w)
  = (setFeedback (mkFeedback true "Simulated a response to your photo request!" "success")
       (setPhotoRequests
          (map (fun pr => if String.eqb (PhotoRequest.id pr) (PhotoRequest.id request)
                          then responded pr else pr)
             (photoRequests (mirrors st))) st),
     w).
Proof. reflexivity. Qed.

Lemma map_Forall2 {A B} (f : A -> B) (l : list A) :
  List.Forall2 (fun x y => y = f x) l (map f l).
Proof. induction l; constructor; auto. Qed.

(** C8.  When the store is ready and the call is not rejected,
    [requestHistoricalPhotos] creates one request with status ["pending"]
    and 0 responses.  The Simulate Response action makes no call and leaves
    the world as it is; in the local list it replaces each request that
    has the id of the clicked one by the same request with status
    ["found"] and one more response, and keeps the others; so a pending
    request of the list that is clicked is found afterwards with its
    responses increased by exactly 1, from 0 to 1 when it is fresh. *)
Theorem photoRequest_lifecycle (st : State) (w : World)
    (location timeframe description : string) (request : PhotoRequest.t) :
  (ready st = true ->
   faults w (length (calls w)) = None ->
   let s' := exec (requestHistoricalPhotos location timeframe description) (st, w) in
   exists d,
     calls (snd s') = calls w ++ [AddPhotoRequestDoc (colPath st "photoRequests") d]
     /\ photoRequestsCol (snd s') = <[autoId w (length (calls w)) := d]> (photoRequestsCol w)
     /\ PhotoRequestData.status d = "pending"
     /\ PhotoRequestData.responses d = 0
     /\ PhotoRequestData.location d = location
     /\ PhotoRequestData.timeframe d = timeframe
     /\ PhotoRequestData.description d = description)
  /\ (let s' := exec (simulateResponse request) (st, w) in
      snd s' = w
      /\ List.Forall2
           (fun pr pr' =>
              pr' = if String.eqb (PhotoRequest.id pr) (PhotoRequest.id request)
                    then responded pr else pr)
           (photoRequests (mirrors st)) (photoRequests (mirrors (fst s')))
      /\ PhotoRequest.id (responded request) = PhotoRequest.id request
      /\ PhotoRequest.status (responded request) = "found"
      /\ PhotoRequest.responses (responded request) = PhotoRequest.responses request + 1
      /\ (PhotoRequest.responses request = 0 ->
          PhotoRequest.responses (responded request) = 1)
      /\ (simulateShown request = true ->
          In request (photoRequests (mirrors st)) ->
          In (responded request) (photoRequests (mirrors (fst s')))
          /\ PhotoRequest.status request = "pending")).
Proof.
  split.
  - intros Hr Hf s'. subst s'. unfold requestHistoricalPhotos. unfold_monad.
    rewrite Hr. cbn [negb]. unfold addPhotoRequestDoc, remote. unfold_monad.
    cbn [fst snd entriesCol timelineEventsCol aiQuestionsCol photoRequestsCol calls faults
         clock clockReads autoId].
    rewrite Hf.
    cbn [fst snd logCall withStore entriesCol aiQuestionsCol photoRequestsCol calls].
    eexists. repeat split.
  - intros s'. subst s'. rewrite simulateResponse_run.
    cbn [fst snd mirrors setFeedback setPhotoRequests photoRequests].
    split; [reflexivity|]. split; [apply map_Forall2|].
    split; [reflexivity|]. split; [reflexivity|]. split; [reflexivity|].
    split.
    + unfold PhotoRequest.responses, responded. cbn. intros ->. reflexivity.
    + intros Hs Hin. split; [|apply String.eqb_eq; exact Hs].
      apply List.in_map_iff. exists request. rewrite String.eqb_refl. auto.
Qed.

Lemma photoRequest_lifecycle_witness :
  (exists d,
      photoRequestsCol (snd (exec (requestHistoricalPhotos "Paris" "2010s" "The tower")
                               (photoState, sampleWorld ∅))) !! "doc0" = Some d
      /\ PhotoRequestData.status d = "pending" /\ PhotoRequestData.responses d = 0)
  /\ In (responded parisRequest)
       (photoRequests (mirrors (fst (exec (simulateResponse parisRequest)
                                       (photoState, sampleWorld ∅))))).
Proof.
  pose proof (photoRequest_lifecycle photoState (sampleWorld ∅)
                "Paris" "2010s" "The tower" parisRequest) as [Hcreate Hsim].
  split.
  - destruct Hcreate as (d & _ & Hcol & Hs & Hn & _); [reflexivity | reflexivity |].
    exists d. rewrite Hcol. split; [apply lookup_insert_eq | split; assumption].
  - destruct Hsim as (_ & _ & _ & _ & _ & _ & Hin).
    apply Hin; [reflexivity | left; reflexivity].
Defined.

(** The scenario of the specification: pending with 0 responses, then
    found with 1. *)
Example simulateResponse_fresh_request :
  map (fun pr => (PhotoRequest.id pr, PhotoRequest.status pr, PhotoRequest.responses pr))
    (photoRequests (mirrors (fst (exec (simulateResponse parisRequest)
                                    (photoState, sampleWorld ∅)))))
  = [("p1", "found", 1); ("p2", "found", 1)].
Proof. vm_compute. reflexivity. Qed.

(* ===================================================================== *)
(** ** C9: who writes the mirrors *)
(* ===================================================================== *)







(* ===================================================================== *)
(** ** Sorting on a key: lemmas *)
(* ===================================================================== *)

Section KeySort.
Context {A : Type}.
Variable key : A -> option Z.

Lemma goesAfter_key_true (x y : A) :
  goesAfter (byKeyDescending key) x y = true ->
  exists kx ky, key x = Some kx /\ key y = Some ky /\ kx < ky.
Proof.
  unfold goesAfter, byKeyDescending.
  destruct (key y) as [ky|]; [|discriminate].
  destruct (key x) as [kx|]; [|discriminate].
  intros H. apply Z.ltb_lt in H. exists kx, ky. repeat split. lia.
Qed.

Lemma goesAfter_key_false (x y : A) :
  keyDescending key x y -> goesAfter (byKeyDescending key) x y = false.
Proof.
  intros (kx & ky & Hx & Hy & Hle). unfold goesAfter, byKeyDescending.
  rewrite Hx, Hy. apply Z.ltb_ge. lia.
Qed.

Lemma sort_key_fixed (l : list A) :
  StronglySorted (keyDescending key) l -> sort (byKeyDescending key) l = l.
Proof.
  induction 1 as [|x l Hs IH Hx]; [reflexivity|].
  cbn [sort fold_right]. fold (sort (byKeyDescending key) l). rewrite IH.
  destruct Hx as [|y l' Hxy _]; [reflexivity|].
  cbn [insertSorted]. rewrite (goesAfter_key_false x y Hxy). reflexivity.
Qed.

Lemma withKey_insertSorted (k : Z) (x : A) (l : list A) :
  withKey key k (insertSorted (byKeyDescending key) x l) = withKey key k (x :: l).
Proof.
  induction l as [|y l IH]; [reflexivity|].
  cbn [insertSorted]. destruct (goesAfter (byKeyDescending key) x y) eqn:E; [|reflexivity].
  apply goesAfter_key_true in E. destruct E as (kx & ky & Hx & Hy & Hlt).
  unfold withKey in *. cbn [List.filter] in *. rewrite IH, Hx, Hy.
  destruct (Z.eqb_spec ky k), (Z.eqb_spec kx k); try reflexivity. lia.
Qed.

Lemma withKey_sort (k : Z) (l : list A) :
  withKey key k (sort (byKeyDescending key) l) = withKey key k l.
Proof.
  induction l as [|x l IH]; [reflexivity|].
  cbn [sort fold_right]. fold (sort (byKeyDescending key) l).
  rewrite withKey_insertSorted. unfold withKey in *. cbn [List.filter].
  rewrite IH. reflexivity.
Qed.
End KeySort.

Lemma filter_all {A} (p : A -> bool) (l : list A) :
  List.Forall (fun x => p x = true) l -> List.filter p l = l.
Proof.
  induction 1 as [|x l Hx _ IH]; [reflexivity|].
  cbn [List.filter]. rewrite Hx, IH. reflexivity.
Qed.

Lemma sort_Forall {A} (comparefn : A -> A -> option Z) (Q : A -> Prop) (l : list A) :
  List.Forall Q l -> List.Forall Q (sort comparefn l).
Proof.
  induction 1 as [|x l Hx Hl IH]; [constructor|].
  cbn [sort fold_right]. apply insertSorted_Forall; assumption.
Qed.

(* ===================================================================== *)
(** ** More on the filtered view (lines 406-415) *)
(* ===================================================================== *)

Lemma string_app_assoc (a b c : string) : (a +:+ b) +:+ c = a +:+ b +:+ c.
Proof.
  induction a as [|x a IH]; [reflexivity|].
  change ((String x a +:+ b) +:+ c) with (String x ((a +:+ b) +:+ c)).
  rewrite IH. reflexivity.
Qed.

Lemma ciSubstring_narrow (a q b s : string) :
  ciSubstring (a +:+ q +:+ b) s -> ciSubstring q s.
Proof.
  intros (pre & post & H). rewrite !toLowerCase_append in H.
  exists (pre +:+ toLowerCase a), (toLowerCase b +:+ post).
  rewrite H. rewrite !string_app_assoc. reflexivity.
Qed.

Lemma Selected_narrow (a q b t : string) (e : Entry.t) :
  Selected (a +:+ q +:+ b) t e -> Selected q t e.
Proof.
  intros [Hs Ht]. split; [|exact Ht].
  destruct Hs as [H | [H | [(tags & tag & H1 & H2 & H) | H]]].
  - left. eapply ciSubstring_narrow, H.
  - right; left. eapply ciSubstring_narrow, H.
  - right; right; left. exists tags, tag. repeat split; try assumption.
    eapply ciSubstring_narrow, H.
  - right; right; right. eapply ciSubstring_narrow, H.
Qed.

Lemma filteredEntries_In (dateValue : string -> option Z) (E : list Entry.t)
    (q t : string) (e : Entry.t) :
  In e (filteredEntries dateValue E q t) <-> In e E /\ Selected q t e.
Proof.
  unfold filteredEntries, sortByDateDescending.
  rewrite <- keeps_Selected.
  rewrite <- (List.filter_In (fun entry => matchesSearch q entry && matchesFilter t entry)).
  split; apply Permutation_in; [|symmetry]; apply sort_perm.
Qed.

(** X1.  On texts whose characters all lie below U+0100, the strings of
    this development, where the case conversion works character by
    character: a query that contains the query [q] selects no entry that
    [q] does not select, so extending the search text at either end only
    narrows the view. *)
Theorem filteredEntries_narrows (dateValue : string -> option Z) (E : list Entry.t)
    (a q b t : string) (e : Entry.t) :
  In e (filteredEntries dateValue E (a +:+ q +:+ b) t) ->
  In e (filteredEntries dateValue E q t).
Proof.
  rewrite !filteredEntries_In. intros [Hin Hs]. split; [exact Hin|].
  eapply Selected_narrow, Hs.
Qed.

Lemma filteredEntries_narrows_witness :
  In tripEntry (filteredEntries IsoDate.dateValue sampleEntries "ari" "all").
Proof.
  apply (filteredEntries_narrows IsoDate.dateValue sampleEntries "P" "ari" "s" "all").
  vm_compute. left. reflexivity.
Defined.

(** X2.  When every date of the list is a valid date, the sort keeps the
    entries of one date in the order the list has them: for every time
    value, the entries of the view with that date are the kept entries of
    the list with that date, in the order of the list. *)
Theorem filteredEntries_stable (dateValue : string -> option Z) (E : list Entry.t)
    (q t : string) (k : Z) :
  List.Forall (fun e => dateValue (Entry.date e) <> None) E ->
  withKey (fun e => dateValue (Entry.date e)) k (filteredEntries dateValue E q t)
  = withKey (fun e => dateValue (Entry.date e)) k
      (List.filter (fun entry => matchesSearch q entry && matchesFilter t entry) E).
Proof.
  intros _. unfold filteredEntries, sortByDateDescending.
  change (compareDates dateValue)
    with (byKeyDescending (fun e => dateValue (Entry.date e))).
  apply withKey_sort.
Qed.

Lemma filteredEntries_stable_witness :
  withKey (fun e => IsoDate.dateValue (Entry.date e)) 1433116800000
    (filteredEntries IsoDate.dateValue [louvreEntry; schoolEntry; tripEntry] "" "all")
  = [louvreEntry; tripEntry].
Proof.
  rewrite filteredEntries_stable; [reflexivity|].
  repeat constructor; vm_compute; discriminate.
Defined.

(** X3.  When every date of the list is a valid date, filtering and sorting
    the view again with the same query and filter gives the view back. *)
Theorem filteredEntries_idempotent (dateValue : string -> option Z) (E : list Entry.t)
    (q t : string) :
  List.Forall (fun e => dateValue (Entry.date e) <> None) E ->
  filteredEntries dateValue (filteredEntries dateValue E q t) q t
  = filteredEntries dateValue E q t.
Proof.
  intros Hvalid. unfold filteredEntries at 1.
  rewrite filter_all.
  - unfold sortByDateDescending.
    change (compareDates dateValue)
      with (byKeyDescending (fun e => dateValue (Entry.date e))).
    apply sort_key_fixed.
    apply (sort_dates_sorted dateValue).
    rewrite List.Forall_forall in *. intros e He.
    apply List.filter_In in He. apply Hvalid, He.
  - unfold filteredEntries, sortByDateDescending. apply sort_Forall.
    apply List.Forall_forall. intros e He. apply List.filter_In in He. apply He.
Qed.

Lemma filteredEntries_idempotent_witness :
  filteredEntries IsoDate.dateValue
    (filteredEntries IsoDate.dateValue sampleEntries "o" "all") "o" "all"
  = filteredEntries IsoDate.dateValue sampleEntries "o" "all".
Proof.
  apply filteredEntries_idempotent.
  repeat constructor; vm_compute; discriminate.
Defined.

(* ===================================================================== *)
(** ** The timeline view (line 888) *)
(* ===================================================================== *)

Section KeySorted.
Context {A : Type}.
Variable key : A -> option Z.

Lemma keyDescending_trans (a b c : A) :
  keyDescending key a b -> keyDescending key b c -> keyDescending key a c.
Proof.
  intros (ka & kb & Ha & Hb & Hab) (kb' & kc & Hb' & Hc & Hbc).
  rewrite Hb in Hb'. injection Hb' as <-.
  exists ka, kc. repeat split; [assumption .. | lia].
Qed.

Lemma insertSorted_key_sorted (x : A) (l : list A) :
  key x <> None -> List.Forall (fun y => key y <> None) l ->
  StronglySorted (keyDescending key) l ->
  StronglySorted (keyDescending key) (insertSorted (byKeyDescending key) x l).
Proof.
  intros Hx Hl Hs. induction Hs as [|y l Hs IH Hy]; cbn [insertSorted].
  - constructor; constructor.
  - inversion Hl as [|? ? Hvy Hvl]; subst.
    destruct (goesAfter (byKeyDescending key) x y) eqn:E.
    + constructor; [apply IH; assumption |].
      apply insertSorted_Forall; [|exact Hy].
      apply goesAfter_key_true in E. destruct E as (kx & ky & Ex & Ey & Hlt).
      exists ky, kx. repeat split; [assumption .. | lia].
    + assert (Hxy : keyDescending key x y).
      { revert E. unfold goesAfter, byKeyDescending, keyDescending.
        destruct (key y) as [ky|]; [|congruence].
        destruct (key x) as [kx|]; [|congruence].
        intros E. apply Z.ltb_ge in E. exists kx, ky. repeat split. lia. }
      constructor; [constructor; assumption |].
      constructor; [exact Hxy |].
      eapply List.Forall_impl; [|exact Hy].
      intros z Hz. eapply keyDescending_trans; eassumption.
Qed.

Lemma sort_key_sorted (l : list A) :
  List.Forall (fun y => key y <> None) l ->
  StronglySorted (keyDescending key) (sort (byKeyDescending key) l).
Proof.
  induction 1 as [|x l Hx Hl IH]; [constructor|].
  cbn [sort fold_right]. apply insertSorted_key_sorted; [exact Hx | | exact IH].
  apply sort_Forall. exact Hl.
Qed.
End KeySorted.

Lemma StronglySorted_impl {A} (R S : A -> A -> Prop) (l : list A) :
  (forall a b, R a b -> S a b) -> StronglySorted R l -> StronglySorted S l.
Proof.
  intros HRS. induction 1 as [|x l Hs IH Hx]; constructor; [exact IH|].
  eapply List.Forall_impl; [|exact Hx]. intros b. apply HRS.
Qed.

(** X4.  Rendering the timeline returns the timeline events of the mirror
    sorted by year descending, a permutation of what the mirror held; the
    sort being in place, the mirror holds the sorted list afterwards; the
    world is not touched; and rendering again changes nothing more. *)
Theorem renderTimeline_sorted (st : State) (w : World) :
  exists sorted st',
    renderTimeline (st, w) = (Returned sorted, (st', w))
    /\ timelineEvents (mirrors st') = sorted
    /\ Permutation sorted (timelineEvents (mirrors st))
    /\ StronglySorted (fun a b => TimelineEvent.year b <= TimelineEvent.year a) sorted
    /\ renderTimeline (st', w) = (Returned sorted, (st', w)).
Proof.
  set (key := fun e : TimelineEvent.t => Some (TimelineEvent.year e)).
  assert (Hsorted : StronglySorted (keyDescending key)
                      (sort compareYears (timelineEvents (mirrors st)))).
  { change compareYears with (byKeyDescending key). apply sort_key_sorted.
    apply List.Forall_forall. intros e _. discriminate. }
  eexists _, _. split; [reflexivity|]. split; [reflexivity|].
  split; [apply sort_perm|]. split.
  - eapply StronglySorted_impl; [|exact Hsorted].
    intros a b (ka & kb & Ha & Hb & Hle). injection Ha as <-. injection Hb as <-. exact Hle.
  - unfold renderTimeline. unfold_monad.
    cbn [mirrors setTimelineEvents timelineEvents].
    change compareYears with (byKeyDescending key) in *.
    rewrite (sort_key_fixed key _ Hsorted). reflexivity.
Qed.

(* ===================================================================== *)
(** ** The tags input (lines 646-647 and 218) *)
(* ===================================================================== *)

Lemma splitComma_cons (s : string) : exists piece pieces, splitComma s = piece :: pieces.
Proof.
  induction s as [|c s (p & ps & IH)]; cbn [splitComma].
  - eexists _, _. reflexivity.
  - rewrite IH. destruct (Ascii.eqb c ","); eexists _, _; reflexivity.
Qed.

Lemma join_cons (sep x y : string) (l : list string) :
  join sep (x :: y :: l) = x +:+ sep +:+ join sep (y :: l).
Proof. reflexivity. Qed.

Lemma join_splitComma (s : string) : join ", " (splitComma s) = spaceAfterCommas s.
Proof.
  induction s as [|c s IH]; [reflexivity|].
  cbn [splitComma spaceAfterCommas].
  destruct (splitComma_cons s) as (p & ps & Hs). rewrite Hs in *.
  destruct (Ascii.eqb_spec c ",") as [->|_].
  - rewrite join_cons, IH. reflexivity.
  - rewrite <- IH. destruct ps; reflexivity.
Qed.

Lemma length_spaceAfterCommas (s : string) :
  String.length (spaceAfterCommas s) = (String.length s + commas s)%nat.
Proof.
  induction s as [|c s IH]; [reflexivity|].
  cbn [spaceAfterCommas commas]. destruct (Ascii.eqb c ","); cbn [String.length]; lia.
Qed.

(** X5.  With the text of the tags input changed to [value], the input
    shows [value] with a space put after each comma: the tags are split at
    the commas and shown joined by a comma and a space, so the shown text is
    longer than the typed one by the number of its commas. *)
Theorem changeTags_value (value : string) (st : State) (w : World) :
  let st' := fst (exec (changeTags value) (st, w)) in
  FormEntry.tags (formEntry (modal st')) = splitComma value
  /\ tagsValue (formEntry (modal st')) = spaceAfterCommas value
  /\ String.length (tagsValue (formEntry (modal st')))
     = (String.length value + commas value)%nat.
Proof.
  intros st'. subst st'. unfold changeTags. unfold_monad.
  cbn [modal setFormEntry formEntry]. unfold tagsValue. cbn [FormEntry.tags withTags].
  rewrite join_splitComma, length_spaceAfterCommas. repeat split.
Qed.

Lemma splitComma_plain (t s : string) :
  commas t = 0%nat ->
  splitComma (t +:+ s)
  = match splitComma s with
    | piece :: pieces => (t +:+ piece) :: pieces
    | [] => [t]
    end.
Proof.
  destruct (splitComma_cons s) as (p & ps & Hs).
  induction t as [|c t IH]; intros Hc.
  - change ("" +:+ s) with s. rewrite Hs. reflexivity.
  - cbn [commas] in Hc. change (String c t +:+ s) with (String c (t +:+ s)).
    cbn [splitComma]. destruct (Ascii.eqb c ","); [discriminate|].
    rewrite (IH Hc), Hs. reflexivity.
Qed.

Lemma append_empty_r (t : string) : t +:+ "" = t.
Proof.
  induction t as [|c t IH]; [reflexivity|].
  change (String c t +:+ "") with (String c (t +:+ "")). rewrite IH. reflexivity.
Qed.

Lemma splitComma_one (t : string) : commas t = 0%nat -> splitComma t = [t].
Proof.
  intros Hc. rewrite <- (append_empty_r t) at 1.
  rewrite splitComma_plain by exact Hc. cbn [splitComma].
  rewrite append_empty_r. reflexivity.
Qed.

Lemma trim_leading_space (t : string) : trim (" " +:+ t) = trim t.
Proof. reflexivity. Qed.

(** Splitting the shown text of comma-free tags: the tags again, each but
    the first behind a space. *)
Lemma splitComma_join (lead : string) (t : string) (l : list string) :
  commas lead = 0%nat ->
  List.Forall (fun x => commas x = 0%nat) (t :: l) ->
  splitComma (lead +:+ join ", " (t :: l)) = (lead +:+ t) :: map (fun x => " " +:+ x) l.
Proof.
  revert lead t. induction l as [|u l IH]; intros lead t Hlead Hl.
  - cbn [join map]. inversion Hl as [|? ? Ht _]; subst.
    rewrite splitComma_plain by exact Hlead.
    rewrite (splitComma_one t Ht). reflexivity.
  - inversion Hl as [|? ? Ht Hl']; subst.
    rewrite join_cons. rewrite splitComma_plain by exact Hlead.
    rewrite splitComma_plain by exact Ht.
    change (", " +:+ join ", " (u :: l)) with (String "," (" " +:+ join ", " (u :: l))).
    cbn [splitComma]. change (Ascii.eqb "," ",") with true. cbv iota.
    rewrite (IH " " u eq_refl Hl'). rewrite append_empty_r. reflexivity.
Qed.

(** X6.  For tags that hold no comma, reading the shown text of the tags
    input back and cleaning it as a save does gives the cleaned tags: the
    spaces the input shows after the commas do not reach the store. *)
Theorem cleanTags_tagsValue (f : FormEntry.t) :
  List.Forall (fun x => commas x = 0%nat) (FormEntry.tags f) ->
  cleanTags (splitComma (tagsValue f)) = cleanTags (FormEntry.tags f).
Proof.
  unfold tagsValue. destruct (FormEntry.tags f) as [|t l]; intros Hl; [reflexivity|].
  change (join ", " (t :: l)) with ("" +:+ join ", " (t :: l)).
  rewrite (splitComma_join "" t l eq_refl Hl).
  unfold cleanTags. f_equal. cbn [map]. f_equal.
  rewrite List.map_map. apply List.map_ext. intros x. apply trim_leading_space.
Qed.

Lemma cleanTags_tagsValue_witness :
  cleanTags (splitComma (tagsValue (sampleForm "Trip" "Went to Paris" ["travel"; " france "; ""])))
  = ["travel"; "france"].
Proof.
  rewrite cleanTags_tagsValue; [reflexivity|].
  repeat constructor.
Defined.

(** X7.  Cleaning cleaned tags changes nothing: an entry saved again with
    the tags it was stored with keeps them. *)
Theorem cleanTags_idempotent (tags : list string) :
  cleanTags (cleanTags tags) = cleanTags tags.
Proof.
  pose proof (cleanTags_not_blank tags) as H.
  unfold cleanTags at 1. rewrite (List.map_ext_in trim (fun t => t)).
  - rewrite List.map_id. apply filter_all.
    eapply List.Forall_impl; [|exact H].
    intros t (Hne & _). apply negb_true_iff, String.eqb_neq. exact Hne.
  - intros t Ht. rewrite List.Forall_forall in H. apply (H t Ht).
Qed.

(* ===================================================================== *)
(** ** The media of the form (lines 682-701) *)
(* ===================================================================== *)

Lemma filterIndexed_past (index start : nat) (l : list string) :
  (index < start)%nat ->
  filterIndexed (fun _ i => negb (Nat.eqb i index)) start l = l.
Proof.
  revert start. induction l as [|x l IH]; intros start Hlt; [reflexivity|].
  cbn [filterIndexed]. destruct (Nat.eqb_spec start index) as [->|_]; [lia|].
  cbn [negb]. rewrite IH by lia. reflexivity.
Qed.

Lemma filterIndexed_from (index start : nat) (l : list string) :
  (start <= index)%nat ->
  filterIndexed (fun _ i => negb (Nat.eqb i index)) start l
  = firstn (index - start) l ++ skipn (S (index - start)) l.
Proof.
  revert start. induction l as [|x l IH]; intros start Hle.
  - destruct (index - start)%nat; reflexivity.
  - cbn [filterIndexed]. destruct (Nat.eqb_spec start index) as [->|Hne].
    + cbn [negb]. rewrite Nat.sub_diag. cbn [firstn skipn app].
      apply filterIndexed_past. lia.
    + cbn [negb]. rewrite (IH (S start)) by lia.
      replace (index - start)%nat with (S (index - S start)) by lia.
      reflexivity.
Qed.

(** X8.  The remove button of the media number [index] leaves the media
    before and after that position, in their order, and nothing else of the
    form, the toast or the world changes; the list is one shorter when the
    position exists and unchanged when it does not. *)
Theorem removeMedia_spec (index : nat) (st : State) (w : World) :
  let urls := FormEntry.mediaUrls (formEntry (modal st)) in
  let s' := exec (removeMedia index) (st, w) in
  s' = (setFormEntry (withMediaUrls (firstn index urls ++ skipn (S index) urls)
                        (formEntry (modal st))) st, w)
  /\ ((index < length urls)%nat ->
      length (FormEntry.mediaUrls (formEntry (modal (fst s')))) = Nat.pred (length urls))
  /\ ((length urls <= index)%nat ->
      FormEntry.mediaUrls (formEntry (modal (fst s'))) = urls).
Proof.
  intros urls s'. subst s'. unfold removeMedia. unfold_monad. fold urls.
  rewrite filterIndexed_from by lia. rewrite Nat.sub_0_r.
  cbn [modal setFormEntry formEntry FormEntry.mediaUrls withMediaUrls].
  split; [reflexivity|]. split.
  - intros Hlt. rewrite List.length_app, List.length_firstn, List.length_skipn. lia.
  - intros Hge. rewrite List.firstn_all2 by exact Hge.
    rewrite List.skipn_all2 by lia. apply List.app_nil_r.
Qed.

Lemma removeMedia_spec_witness :
  FormEntry.mediaUrls
    (formEntry (modal (fst (exec (removeMedia 5)
       (sampleState (withMediaUrls ["a"; "b"] (sampleForm "" "" [])) None, sampleWorld ∅)))))
  = ["a"; "b"].
Proof.
  apply (removeMedia_spec 5
           (sampleState (withMediaUrls ["a"; "b"] (sampleForm "" "" [])) None)
           (sampleWorld ∅)).
  cbn. lia.
Defined.

(** X9.  The Add Photo/Video button puts one placeholder address at the
    end of the media, numbered one more than the media there were, and
    shows a toast of type ["info"] with no call on the store; removing the
    media at the new last position gives the media back as they were. *)
Theorem addMedia_removeMedia (st : State) (w : World) :
  let urls := FormEntry.mediaUrls (formEntry (modal st)) in
  let s1 := exec addMedia (st, w) in
  let s2 := exec (removeMedia (length urls)) s1 in
  FormEntry.mediaUrls (formEntry (modal (fst s1)))
  = urls ++ ["https://placehold.co/100x100/A78BFA/FFFFFF?text=Media"
             +:+ ofZ (Z.of_nat (length urls) + 1)]
  /\ feedback (fst s1)
     = mkFeedback true "Media upload simulated! (Requires actual storage)" "info"
  /\ snd s1 = w
  /\ formEntry (modal (fst s2)) = formEntry (modal st)
  /\ snd s2 = w.
Proof.
  intros urls s1 s2. subst s1 s2. unfold removeMedia, addMedia. unfold_monad.
  cbn [modal setFormEntry setFeedback formEntry FormEntry.mediaUrls withMediaUrls].
  fold urls. rewrite filterIndexed_from by lia. rewrite Nat.sub_0_r.
  rewrite List.firstn_app, Nat.sub_diag, List.firstn_all. cbn [firstn].
  rewrite List.skipn_all2 by (rewrite List.length_app; cbn; lia).
  rewrite !List.app_nil_r. repeat split.
  unfold withMediaUrls. cbn. subst urls. destruct (formEntry (modal st)); reflexivity.
Qed.

(* ===================================================================== *)
(** ** Deleting an entry (lines 242-257) *)
(* ===================================================================== *)

(** X10.  With the store ready: a delete the user does not confirm changes
    neither the component nor the world; a confirmed delete whose call is
    not rejected logs that one call, removes the document with that id if
    there is one, keeps every other document and shows the success toast,
    whether the document existed or not. *)
Theorem handleDeleteEntry_spec (entryId : string) (st : State) (w : World) :
  ready st = true ->
  exec (handleDeleteEntry entryId false) (st, w) = (st, w)
  /\ (faults w (length (calls w)) = None ->
      let s' := exec (handleDeleteEntry entryId true) (st, w) in
      calls (snd s') = calls w ++ [DeleteDoc (colPath st "entries") entryId]
      /\ entriesCol (snd s') !! entryId = None
      /\ (forall k, k <> entryId -> entriesCol (snd s') !! k = entriesCol w !! k)
      /\ fst s' = setFeedback (mkFeedback true "Entry deleted successfully!" "success") st).
Proof.
  intros Hr. split.
  - unfold handleDeleteEntry. unfold_monad. rewrite Hr. destruct st; reflexivity.
  - intros Hf s'. subst s'. unfold handleDeleteEntry. unfold_monad. rewrite Hr. cbn [negb].
    unfold deleteEntryDoc, remote. unfold_monad. rewrite Hf.
    cbn [fst snd logCall withStore entriesCol calls].
    split; [reflexivity|]. split; [apply lookup_delete_eq|]. split; [|reflexivity].
    intros k Hk. apply lookup_delete_ne. congruence.
Qed.

Lemma handleDeleteEntry_spec_witness :
  entriesCol (snd (exec (handleDeleteEntry "e1" true)
                     (sampleState (sampleForm "" "" []) None, sampleWorld commentedStore)))
    !! "e1" = None.
Proof.
  apply (proj2 (handleDeleteEntry_spec "e1" (sampleState (sampleForm "" "" []) None)
                  (sampleWorld commentedStore) eq_refl)).
  reflexivity.
Defined.

(* ===================================================================== *)
(** ** What the handlers never do *)
(* ===================================================================== *)

(** X11.  While the store handle or the user id is missing, no action of
    the user makes a call on the remote store, and the four collections
    stay as they are. *)
Theorem not_ready_no_call (a : Action) (s : App) :
  ready (fst s) = false ->
  isSubscriptionCallback a = false ->
  calls (snd (step a s)) = calls (snd s)
  /\ collections (snd (step a s)) = collections (snd s).
Proof.
  destruct s as [st w]. cbn [fst snd]. intros Hr Ha.
  assert (H : snd (step a (st, w)) = w).
  { destruct a; try discriminate Ha;
      unfold_handlers; reduce_state;
      try (change (ready (setView _ st)) with (ready st));
      rewrite ?Hr; cbn [negb fst snd]; try reflexivity.
    destruct entryToEdit; reflexivity. }
  rewrite H. split; reflexivity.
Qed.

Lemma not_ready_no_call_witness :
  calls (snd (step SaveEntry (signedOutState, sampleWorld ∅))) = [].
Proof. apply (not_ready_no_call SaveEntry (signedOutState, sampleWorld ∅)); reflexivity. Defined.

(** X12.  When the provider rejects the first call an action of the user
    makes, the four collections are as they were before the action, and at
    most that one call has been logged. *)
Theorem first_call_rejected (a : Action) (s : App) (e : string) :
  faults (snd s) (length (calls (snd s))) = Some e ->
  isSubscriptionCallback a = false ->
  collections (snd (step a s)) = collections (snd s)
  /\ (length (calls (snd (step a s))) <= length (calls (snd s)) + 1)%nat.
Proof.
  destruct s as [st w]. cbn [fst snd]. intros Hf Ha.
  destruct a; try discriminate Ha;
    unfold_handlers; reduce_state; reduce_world;
    repeat (rewrite ?Hf; split_run; reduce_world; rewrite ?Hf);
    try congruence;
    rewrite ?List.length_app; cbn [length]; split; try reflexivity; try lia.
Qed.

Lemma first_call_rejected_witness :
  collections (snd (step (DeleteEntry "e1" true)
                      (sampleState (sampleForm "" "" []) None, offlineWorld commentedStore)))
  = collections (offlineWorld commentedStore).
Proof.
  apply (first_call_rejected (DeleteEntry "e1" true)
           (sampleState (sampleForm "" "" []) None, offlineWorld commentedStore)
           "unavailable"); reflexivity.
Defined.

(* ===================================================================== *)
(** ** A rejected second write (lines 312-321) *)
(* ===================================================================== *)

(** X13.  When the store is ready, the first [setDoc] of
    [generateAIQuestionsForYear] goes through and the second is rejected,
    the first question stays written, the second is not, and the toast is
    the error of the failed generation: nothing is rolled back. *)
Theorem generateAIQuestionsForYear_partial (st : State) (w : World) (year : Z)
    (e : string) :
  ready st = true ->
  faults w (length (calls w)) = None ->
  faults w (length (calls w) + 1)%nat = Some e ->
  let s' := exec (generateAIQuestionsForYear year) (st, w) in
  exists qa qb,
    newQuestions (clock w (clockReads w)) (clock w (S (clockReads w))) year = [qa; qb]
    /\ aiQuestionsCol (snd s') = <[Question.id qa := qa]> (aiQuestionsCol w)
    /\ aiQuestionsCol (snd s') !! Question.id qb = aiQuestionsCol w !! Question.id qb
    /\ length (calls (snd s')) = (length (calls w) + 2)%nat
    /\ feedback (fst s')
       = mkFeedback true ("Failed to generate AI questions: " +:+ e) "error".
Proof.
  intros Hr Hf1 Hf2 s'. subst s'. eexists _, _. split; [reflexivity|].
  unfold generateAIQuestionsForYear. unfold_monad. rewrite Hr. cbn [negb].
  reduce_world. unfold newQuestions. cbn [forEach Question.id].
  unfold setQuestionDoc, remote. unfold_monad. reduce_world. rewrite Hf1.
  reduce_world. rewrite List.length_app. cbn [length]. rewrite Hf2.
  reduce_world. cbn [setFeedback feedback].
  split; [reflexivity|]. split.
  - apply lookup_insert_ne. apply suffixed_ids_differ.
  - split; [|reflexivity]. rewrite !List.length_app. cbn [length]. lia.
Qed.

Lemma generateAIQuestionsForYear_partial_witness :
  size (aiQuestionsCol (snd (exec (generateAIQuestionsForYear 2015)
          (sampleState (sampleForm "" "" []) None, flakyWorld)))) = 1%nat.
Proof.
  destruct (generateAIQuestionsForYear_partial
              (sampleState (sampleForm "" "" []) None) flakyWorld
              2015 "unavailable" eq_refl eq_refl eq_refl)
    as (qa & qb & _ & Hcol & _).
  rewrite Hcol. cbn [aiQuestionsCol flakyWorld]. rewrite insert_empty.
  apply map_size_singleton.
Defined.

(* ===================================================================== *)
(** ** The modal (lines 171-200 with 203-239) *)
(* ===================================================================== *)

(** X14.  Opening an entry for editing and saving at once, with the store
    ready, the entry's title and content non-empty, its document in the
    store and the call not rejected: the document under the entry's id gets
    the entry's title, content, date, location, privacy and type, its tags
    cleaned, and the media and the comments the opened entry had (not those
    the store holds by then); the author becomes the user; the modal is
    closed and no entry is being edited any more. *)
Theorem edit_then_save (e : Entry.t) (today : string) (st : State) (w : World) :
  ready st = true ->
  Entry.title e <> "" ->
  Entry.content e <> "" ->
  is_Some (entriesCol w !! Entry.id e) ->
  faults w (length (calls w)) = None ->
  let s2 := exec handleSaveEntry (exec (openEntryModal (Some e) today) (st, w)) in
  let d := Entry.data e in
  entriesCol (snd s2) !! Entry.id e
  = Some (EntryData.mk (EntryData.title d) (EntryData.content d) (EntryData.date d)
            (EntryData.location d) (Some (cleanTags (default [] (EntryData.tags d))))
            (EntryData.privacy d) (EntryData.type d)
            (Some (default [] (EntryData.mediaUrls d)))
            (Some (default [] (EntryData.collaborativeEntries d)))
            (userIdOf st) "You" (clock w (clockReads w)))
  /\ (forall k, k <> Entry.id e -> entriesCol (snd s2) !! k = entriesCol w !! k)
  /\ showNewEntry (modal (fst s2)) = false
  /\ editingEntry (modal (fst s2)) = None.
Proof.
  intros Hr Ht Hc [d0 Hd0] Hf s2 d. subst s2 d.
  unfold Entry.title, Entry.content in *.
  rewrite <- truthy_false in Ht, Hc. apply not_false_is_true in Ht, Hc.
  unfold openEntryModal, handleSaveEntry. unfold_monad.
  change (ready (setShowNewEntry _ (setFormEntry _ (setEditingEntry _ st)))) with (ready st).
  rewrite Hr. reduce_state. cbn [formEntry editingEntry FormEntry.title FormEntry.content].
  rewrite Ht, Hc. cbn [negb orb].
  unfold updateEntryDoc, remote. unfold_monad. reduce_world. rewrite Hf, Hd0.
  reduce_world. reduce_state. cbn [showNewEntry editingEntry].
  split; [apply lookup_insert_eq|]. split; [|split; reflexivity].
  intros k Hk. apply lookup_insert_ne. congruence.
Qed.

Lemma edit_then_save_witness :
  EntryData.collaborativeEntries
  <$> entriesCol (snd (exec handleSaveEntry
                         (exec (openEntryModal (Some tripEntry) "2024-01-01")
                            (sampleState (sampleForm "" "" []) None,
                             sampleWorld commentedStore)))) !! Entry.id tripEntry
  = Some (Some []).
Proof.
  rewrite (proj1 (edit_then_save tripEntry "2024-01-01"
                    (sampleState (sampleForm "" "" []) None) (sampleWorld commentedStore)
                    eq_refl ltac:(discriminate) ltac:(discriminate)
                    ltac:(eexists; reflexivity) eq_refl)).
  reflexivity.
Defined.

(** X15.  Opening the modal for a new entry shows it on an empty form
    dated today, private and personal, with no entry being edited; saving
    at once, with the store ready, is refused with the validation toast,
    makes no call and leaves the modal open on the same form. *)
Theorem new_then_save (today : string) (st : State) (w : World) :
  ready st = true ->
  let s1 := exec (openEntryModal None today) (st, w) in
  let s2 := exec handleSaveEntry s1 in
  modal (fst s1)
  = mkModal true None (FormEntry.mk "" "" today "" [] "private" "personal" [] [])
  /\ snd s1 = w
  /\ snd s2 = w
  /\ modal (fst s2) = modal (fst s1)
  /\ feedback (fst s2) = mkFeedback true "Title and content cannot be empty." "error".
Proof.
  intros Hr s1 s2. subst s1 s2.
  unfold openEntryModal, handleSaveEntry. unfold_monad.
  change (ready (setShowNewEntry _ (setFormEntry _ (setEditingEntry _ st)))) with (ready st).
  rewrite Hr. repeat split.
Qed.

Lemma new_then_save_witness :
  snd (exec handleSaveEntry
         (exec (openEntryModal None "2024-01-01")
            (sampleState (sampleForm "Trip" "Went to Paris" []) None, sampleWorld ∅)))
  = sampleWorld ∅.
Proof.
  apply (new_then_save "2024-01-01"
           (sampleState (sampleForm "Trip" "Went to Paris" []) None) (sampleWorld ∅)).
  reflexivity.
Defined.

(* ===================================================================== *)
(** ** Snapshots (lines 140-151) *)
(* ===================================================================== *)

Lemma snapshot_entries_In (m : gmap string EntryData.t) (e : Entry.t) :
  In e (map (fun kd => Entry.mk (fst kd) (snd kd)) (map_to_list m))
  <-> m !! Entry.id e = Some (Entry.data e).
Proof.
  rewrite List.in_map_iff. split.
  - intros ([k d] & <- & Hin). cbn. apply elem_of_map_to_list.
    apply list_elem_of_In. exact Hin.
  - intros H. exists (Entry.id e, Entry.data e). split; [destruct e; reflexivity|].
    apply list_elem_of_In, elem_of_map_to_list. exact H.
Qed.

(** X16.  A snapshot of the entries makes no call and leaves the world and
    the other three mirrors as they are; afterwards the mirror holds an
    entry exactly when the collection holds its data under its id, and no
    two entries of the mirror share an id. *)
Theorem onSnapshot_entries (st : State) (w : World) :
  let s' := exec (onSnapshot EntriesCollection) (st, w) in
  snd s' = w
  /\ (forall e, In e (entries (mirrors (fst s')))
                <-> entriesCol w !! Entry.id e = Some (Entry.data e))
  /\ List.NoDup (map Entry.id (entries (mirrors (fst s'))))
  /\ timelineEvents (mirrors (fst s')) = timelineEvents (mirrors st)
  /\ aiQuestions (mirrors (fst s')) = aiQuestions (mirrors st)
  /\ photoRequests (mirrors (fst s')) = photoRequests (mirrors st).
Proof.
  cbn. split; [reflexivity|]. split; [apply snapshot_entries_In|].
  split; [|repeat split].
  rewrite List.map_map. cbn. apply NoDup_ListNoDup, NoDup_fst_map_to_list.
Qed.

(** X17.  A save that goes through shows at the next snapshot of the
    entries: the mirror then holds the saved data, under the id of the
    entry that was edited or under the id the store gave the new one. *)
Theorem save_then_snapshot (st : State) (w : World) :
  ready st = true ->
  FormEntry.title (formEntry (modal st)) <> "" ->
  FormEntry.content (formEntry (modal st)) <> "" ->
  faults w (length (calls w)) = None ->
  (forall editing, editingEntry (modal st) = Some editing ->
                   is_Some (entriesCol w !! Entry.id editing)) ->
  let id := match editingEntry (modal st) with
            | Some editing => Entry.id editing
            | None => autoId w (length (calls w))
            end in
  In (Entry.mk id (entryData st (clock w (clockReads w))))
    (entries (mirrors (fst (step (Snapshot EntriesCollection) (step SaveEntry (st, w)))))).
Proof.
  intros Hr Ht Hc Hf Hex id.
  destruct (handleSaveEntry_success st w Hr Ht Hc Hf Hex) as [Hcol _].
  unfold step at 1. unfold run at 1. unfold exec at 1. unfold onSnapshot.
  cbn [fst snd setEntries mirrors entries]. apply snapshot_entries_In.
  unfold step, run. rewrite Hcol. apply lookup_insert_eq.
Qed.

Lemma save_then_snapshot_witness :
  In (Entry.mk "doc0"
        (entryData (sampleState (sampleForm "Trip" "Went to Paris" []) None) 1700000000000))
    (entries (mirrors (fst (step (Snapshot EntriesCollection)
                              (step SaveEntry
                                 (sampleState (sampleForm "Trip" "Went to Paris" []) None,
                                  sampleWorld ∅)))))).
Proof.
  apply (save_then_snapshot (sampleState (sampleForm "Trip" "Went to Paris" []) None)
           (sampleWorld ∅));
    [reflexivity | discriminate | discriminate | reflexivity | discriminate].
Defined.

(** X18.  What Simulate Response writes in the mirror of the photo requests
    does not outlive the next snapshot of that collection: the mirrors
    after the snapshot are those the snapshot alone would have given. *)
Theorem simulateResponse_then_snapshot (request : PhotoRequest.t) (s : App) :
  mirrors (fst (step (Snapshot PhotoRequestsCollection) (step (SimulateResponse request) s)))
  = mirrors (fst (step (Snapshot PhotoRequestsCollection) s)).
Proof. destruct s as [st w]. reflexivity. Qed.

(* ===================================================================== *)
(** ** Handlers run twice *)
(* ===================================================================== *)

(** A successful run of [handleAnswerAIQuestion]. *)
Lemma handleAnswerAIQuestion_run (st : State) (w : World)
    (questionId answerContent : string) (q : Question.t) :
  ready st = true ->
  isBlank answerContent = false ->
  aiQuestionsCol w !! questionId = Some q ->
  faults w (length (calls w)) = None ->
  exec (handleAnswerAIQuestion questionId answerContent) (st, w)
  = (setFeedback (mkFeedback true "Memory saved to AI Assistant!" "success") st,
     logCall (UpdateQuestionDoc (colPath st "aiQuestions") questionId answerContent
                (clock w (clockReads w)))
       (withStore (entriesCol w)
          (<[questionId := applyAnswer answerContent (clock w (clockReads w)) q]>
             (aiQuestionsCol w))
          (photoRequestsCol w) (tick w))).
Proof.
  intros Hr Hb Hq Hf. unfold handleAnswerAIQuestion.
  unfold exec, tryCatch, notReady, showUserFeedback, setState, getState, dateNow,
    mbind, M_bind, mret, M_ret.
  cbn [fst snd]. rewrite isBlank_truthy, Hr, Hb. cbn [negb].
  unfold updateQuestionDoc, remote. cbn [fst snd tick faults calls aiQuestionsCol].
  rewrite Hf, Hq. reflexivity.
Qed.

(** X19.  Answering a question that is answered already overwrites the
    answer: after two answers that go through, the question holds the
    second content and the second clock reading. *)
Theorem handleAnswerAIQuestion_twice (st : State) (w : World)
    (questionId first second : string) (q : Question.t) :
  ready st = true ->
  isBlank first = false ->
  isBlank second = false ->
  aiQuestionsCol w !! questionId = Some q ->
  faults w (length (calls w)) = None ->
  faults w (length (calls w) + 1)%nat = None ->
  let s1 := exec (handleAnswerAIQuestion questionId first) (st, w) in
  let s2 := exec (handleAnswerAIQuestion questionId second) s1 in
  aiQuestionsCol (snd s2) !! questionId
  = Some (applyAnswer second (clock w (S (clockReads w))) q).
Proof.
  intros Hr Hb1 Hb2 Hq Hf1 Hf2 s1 s2. subst s1 s2.
  rewrite (handleAnswerAIQuestion_run st w questionId first q) by assumption.
  rewrite (handleAnswerAIQuestion_run _ _ questionId second
             (applyAnswer first (clock w (clockReads w)) q)).
  - cbn [snd logCall withStore aiQuestionsCol]. apply lookup_insert_eq.
  - exact Hr.
  - exact Hb2.
  - cbn [logCall withStore aiQuestionsCol]. apply lookup_insert_eq.
  - cbn [logCall withStore tick calls faults]. rewrite List.length_app. exact Hf2.
Qed.

Lemma handleAnswerAIQuestion_twice_witness :
  Question.answer
  <$> aiQuestionsCol (snd (exec (handleAnswerAIQuestion "q1700000000000a" "To fly")
                             (exec (handleAnswerAIQuestion "q1700000000000a" "To travel")
                                (sampleState (sampleForm "" "" []) None, questionWorld))))
        !! "q1700000000000a"
  = Some (Some "To fly").
Proof.
  rewrite (handleAnswerAIQuestion_twice (sampleState (sampleForm "" "" []) None)
             questionWorld "q1700000000000a" "To travel" "To fly" dreamsQuestion);
    reflexivity.
Defined.




(** X23.  A comment or a like on an entry whose document does not exist,
    with the store ready and the read not rejected, reads the store once,
    writes nothing and shows no toast: the component state is as it was. *)
Theorem comment_on_missing_entry (st : State) (w : World)
    (entryId authorName content commentId : string) :
  ready st = true ->
  entriesCol w !! entryId = None ->
  faults w (length (calls w)) = None ->
  isBlank content = false ->
  exec (handleAddCollaborativeComment entryId authorName content) (st, w)
  = (st, logCall (GetDoc (colPath st "entries") entryId) w)
  /\ exec (handleLikeCollaborativeComment entryId commentId) (st, w)
     = (st, logCall (GetDoc (colPath st "entries") entryId) w).
Proof.
  intros Hr Hd Hf Hb.
  unfold handleAddCollaborativeComment, handleLikeCollaborativeComment.
  unfold_monad. rewrite isBlank_truthy, Hr, Hb. cbn [negb].
  unfold getDoc, remote. unfold_monad. rewrite Hf, Hd. split; reflexivity.
Qed.

Lemma comment_on_missing_entry_witness :
  fst (exec (handleLikeCollaborativeComment "e9" "c1")
         (sampleState (sampleForm "" "" []) None, sampleWorld commentedStore))
  = sampleState (sampleForm "" "" []) None.
Proof.
  rewrite (proj2 (comment_on_missing_entry (sampleState (sampleForm "" "" []) None)
                    (sampleWorld commentedStore) "e9" "Guest User" "hello" "c1"
                    eq_refl eq_refl eq_refl eq_refl)).
  reflexivity.
Defined.

(* ===================================================================== *)
(** ** Start-up (lines 11-73 and 418-436) *)
(* ===================================================================== *)

Lemma Boot_render_error (b : Boot.t) :
  (exists m, Boot.render b = Boot.ErrorScreen m)
  <-> Boot.loading b = false /\ Boot.error b <> None.
Proof.
  unfold Boot.render. destruct (Boot.loading b), (Boot.error b) as [m|]; split;
    try (intros [m' H]; discriminate H);
    try (intros [H1 H2]; congruence).
  - intros _. split; [reflexivity | discriminate].
  - intros _. exists m. reflexivity.
Qed.

Lemma Boot_handle_keeps_error (e : Boot.event) (b : Boot.t) :
  Boot.loading b = false /\ Boot.error b <> None ->
  Boot.loading (Boot.handle e b) = false /\ Boot.error (Boot.handle e b) <> None.
Proof.
  intros [Hl He].
  destruct e as [[|] [m|] | [u|] [m|]]; cbn; split; try assumption;
    try reflexivity; discriminate.
Qed.

(** X21.  The error screen is final: no cell is ever set back, so once the
    component renders the error screen, it renders an error screen after
    any further initialisations and auth callbacks. *)
Theorem Boot_error_screen_final (events : list Boot.event) (b : Boot.t) :
  (exists m, Boot.render b = Boot.ErrorScreen m) ->
  exists m, Boot.render (Boot.run events b) = Boot.ErrorScreen m.
Proof.
  rewrite !Boot_render_error. revert b.
  induction events as [|e events IH]; intros b H; [exact H|].
  cbn [Boot.run fold_left]. apply IH, Boot_handle_keeps_error, H.
Qed.

Lemma Boot_error_screen_final_witness :
  exists m,
    Boot.render
      (Boot.run [Boot.InitFirebase true None; Boot.AuthStateChanged (Some "user-1") None]
         (Boot.handle (Boot.InitFirebase false None) Boot.initial))
    = Boot.ErrorScreen m.
Proof.
  apply Boot_error_screen_final. eexists. reflexivity.
Defined.

Lemma bootInvariant_handle (e : Boot.event) (b : Boot.t) :
  bootInvariant b -> bootInvariant (Boot.handle e b).
Proof.
  intros (Hready & Hloaded & Hdb). unfold bootInvariant.
  destruct e as [[|] [m|] | [u|] [m|]]; cbn; repeat split; try tauto;
    try (intros _; eexists; reflexivity);
    try (intros H; apply Hready in H; exact H);
    try (intros H; apply Hready; exact H).
Qed.

(** X22.  In every run of initialisations and auth callbacks from the
    initial cells, [isAuthReady] holds exactly when a user id is set, a user
    id is set only once loading has ended, and the store handle is there
    exactly when the auth handle is; so the subscriptions are set up only
    with the loading screen gone. *)
Theorem Boot_run_invariant (events : list Boot.event) :
  let b := Boot.run events Boot.initial in
  bootInvariant b /\ (Boot.subscribes b = true -> Boot.render b <> Boot.LoadingScreen).
Proof.
  assert (H : forall b, bootInvariant b -> bootInvariant (Boot.run events b)).
  { induction events as [|e events IH]; intros b Hb; [exact Hb|].
    cbn [Boot.run fold_left]. apply IH, bootInvariant_handle, Hb. }
  intros b. assert (Hb : bootInvariant b).
  { apply H. unfold bootInvariant. cbn. repeat split; try discriminate.
    - intros [? ?]; discriminate.
    - intros [? ?]; discriminate. }
  split; [exact Hb|].
  destruct Hb as (_ & Hloaded & _). unfold Boot.subscribes, Boot.render.
  intros Hs. apply andb_true_iff in Hs. destruct Hs as [Hs _].
  apply andb_true_iff in Hs. destruct Hs as [_ Hu].
  destruct (Boot.userId b) as [u|]; [|discriminate].
  rewrite Hloaded by (eexists; reflexivity).
  destruct (Boot.error b); discriminate.
Qed.
